(** * inriskapi: the weather archive service of [src/app.py]

    A shallow embedding of the three Flask handlers of [src/app.py]
    ([store_weather_data], [list_weather_files], [get_weather_file_content])
    together with the interpreter and library primitives they call
    ([float], [repr] of a float, [datetime.strptime], [pandas.date_range],
    [strftime], [json.dumps]), followed by the properties of the
    specification that can be stated about them.

    Conventions.
    - A Python [str] is a Rocq [string]: a sequence of code points below 256.
    - A Python [float] is a primitive binary64 [float]; its mathematical
      content is read through [Prim2SF].
    - A Python [int] is a [Z].
    - The upstream weather API and the bucket transport are external: they
      are the fields of an environment [Env] over which every theorem
      quantifies. The bucket content and the log of external calls form the
      [World] that the handlers thread. *)

From Stdlib Require Import ZArith Lia List String Ascii Bool Floats.
From Stdlib Require Import DecimalString DecimalZ DecimalPos Reals Lra.
From stdpp Require Import gmap strings.

Set Warnings "-inexact-float,-register-all".

Open Scope Z_scope.

(** ** Characters and strings *)

Module PyStr.

Definition code (c : ascii) : Z := Z.of_N (N_of_ascii c).

Definition chr (n : Z) : ascii := ascii_of_N (Z.to_N n).

Definition is_digit (c : ascii) : bool := (48 <=? code c) && (code c <=? 57).

Definition digit_val (c : ascii) : Z := code c - 48.

Definition digit_char (d : Z) : ascii := chr (48 + d).

(** [str.lower] on one character, for the ASCII letters. *)
Definition lower (c : ascii) : ascii :=
  if (65 <=? code c) && (code c <=? 90) then chr (code c + 32) else c.

Fixpoint string_of_list (l : list ascii) : string :=
  match l with
  | nil => EmptyString
  | c :: l' => String c (string_of_list l')
  end.

Fixpoint list_of_string (s : string) : list ascii :=
  match s with
  | EmptyString => nil
  | String c s' => c :: list_of_string s'
  end.

(** The decimal numeral of an integer, as [str(n)] prints it. *)
Definition str_of_Z (n : Z) : string := NilZero.string_of_int (Z.to_int n).

(** The value of a run of decimal digits, most significant first. *)
Definition digits_value (l : list ascii) : Z :=
  fold_left (fun acc c => 10 * acc + digit_val c) l 0.

(** [s.join(parts)]. *)
Fixpoint join (sep : string) (parts : list string) : string :=
  match parts with
  | nil => EmptyString
  | p :: nil => p
  | p :: rest => p +:+ sep +:+ join sep rest
  end.

Definition hex_digit (d : Z) : ascii :=
  if d <? 10 then chr (48 + d) else chr (87 + d).

(** Two lower-case hexadecimal digits of a code point below 256. *)
Definition hex2 (n : Z) : string :=
  String (hex_digit (n / 16)) (String (hex_digit (n mod 16)) EmptyString).

End PyStr.

(** ** Python floats *)

Module PyFloat.
Import PyStr.

(** *** [repr(x)]: the shortest numeral that reads back as [x]

    CPython prints a float with [_Py_dg_dtoa] in mode 0 and lays the digits
    out with [format_float_short] (format code ['r']). For the finite
    non-zero float [m * 2^e] the digit generation works on the integers
    [b], [s], [mlo], [mhi] with [x / 10^k = b / s] and the half distances to
    the neighbouring floats [mlo / s] (below) and [mhi / s] (above). *)

(** [x] is a power of two above the smallest normal binade: the float below
    is twice as close as the float above. *)
Definition dtoa_spec_case (m : positive) (e : Z) : bool :=
  (Zpos m =? 2 ^ 52) && (-1074 <? e).

(** [(b, s, mlo, mhi)] with [x = b / s] before the decimal scaling. *)
Definition dtoa_scale (m : positive) (e : Z) : Z * Z * Z * Z :=
  let sh := if dtoa_spec_case m e then 2 else 1 in
  let hi := if dtoa_spec_case m e then 2 else 1 in
  if sh <=? e then (Zpos m * 2 ^ e, 1, 2 ^ (e - sh), hi * 2 ^ (e - sh))
  else (Zpos m * 2 ^ sh, 2 ^ (sh - e), 1, hi).

(** While [10 * s <= b]: [s := 10 * s; k := k + 1]. *)
Fixpoint dtoa_grow (fuel : nat) (b s k : Z) : Z * Z :=
  match fuel with
  | O => (s, k)
  | S fuel' => if 10 * s <=? b then dtoa_grow fuel' b (10 * s) (k + 1) else (s, k)
  end.

(** While [b < s]: [b, mlo, mhi := 10 * b, 10 * mlo, 10 * mhi; k := k - 1]. *)
Fixpoint dtoa_shrink (fuel : nat) (b mlo mhi s k : Z) : Z * Z * Z * Z :=
  match fuel with
  | O => (b, mlo, mhi, k)
  | S fuel' =>
      if b <? s then dtoa_shrink fuel' (10 * b) (10 * mlo) (10 * mhi) s (k - 1)
      else (b, mlo, mhi, k)
  end.

Definition is_Lt (c : comparison) : bool := match c with Lt => true | _ => false end.
Definition is_Eq (c : comparison) : bool := match c with Eq => true | _ => false end.
Definition is_Gt (c : comparison) : bool := match c with Gt => true | _ => false end.

(** The digit loop of [_Py_dg_dtoa] (the [leftright] branch). The digits are
    accumulated most recent first; the flag tells that the loop left through
    [round_9_up], so that [roundoff] must still propagate a carry. *)
Fixpoint dtoa_loop (fuel : nat) (even : bool) (s b mlo mhi : Z) (acc : list Z)
  : list Z * bool :=
  match fuel with
  | O => (acc, false)
  | S fuel' =>
      let dig := b / s in
      let b := b mod s in
      let j := b ?= mlo in
      let j1 := if s - mhi <? 0 then Gt else b ?= s - mhi in
      if is_Eq j1 && even then
        if dig =? 9 then (9 :: acc, true)
        else ((if is_Gt j then dig + 1 else dig) :: acc, false)
      else if is_Lt j || (is_Eq j && even) then
        if b =? 0 then (dig :: acc, false)
        else if is_Gt j1 then
          let j1' := 2 * b ?= s in
          if is_Gt j1' || (is_Eq j1' && Z.odd dig) then
            if dig =? 9 then (9 :: acc, true) else ((dig + 1) :: acc, false)
          else (dig :: acc, false)
        else (dig :: acc, false)
      else if is_Gt j1 then
        if dig =? 9 then (9 :: acc, true) else ((dig + 1) :: acc, false)
      else dtoa_loop fuel' even s (10 * b) (10 * mlo) (10 * mhi) (dig :: acc)
  end.

(** [roundoff]: drop the trailing nines and increment the digit before them;
    when every digit was a nine the result is the single digit 1 and the
    decimal exponent grows by one. *)
Fixpoint roundoff (rev_digits : list Z) : list Z * bool :=
  match rev_digits with
  | nil => (1 :: nil, true)
  | d :: rest => if d =? 9 then roundoff rest else ((d + 1) :: rest, false)
  end.

Definition dtoa_fuel (n : Z) : nat := Z.to_nat (Z.log2 n) + 2.

(** The digits of [m * 2^e] and the position [decpt] of the decimal point:
    the float is read as [0.d1 d2 ... dn * 10^decpt]. *)
Definition dtoa (m : positive) (e : Z) : list Z * Z :=
  let '(b, s, mlo, mhi) := dtoa_scale m e in
  let '(b, s, mlo, mhi, k) :=
    if b <? s then
      let '(b', mlo', mhi', k) := dtoa_shrink (dtoa_fuel s) b mlo mhi s 0 in
      (b', s, mlo', mhi', k)
    else
      let '(s', k) := dtoa_grow (dtoa_fuel b) b s 0 in
      (b, s', mlo, mhi, k) in
  let '(rev_digits, up) :=
    dtoa_loop (dtoa_fuel s) (Z.even (Zpos m)) s b mlo mhi nil in
  if up then
    let '(rev_digits', over) := roundoff rev_digits in
    (rev rev_digits', (if over then k + 1 else k) + 1)
  else (rev rev_digits, k + 1).

Definition zeros (n : Z) : string :=
  string_of_list (repeat "0"%char (Z.to_nat n)).

Definition digits_string (ds : list Z) : string :=
  string_of_list (map digit_char ds).

(** C's ["%+.02d"]. *)
Definition format_exponent (ex : Z) : string :=
  (if ex <? 0 then "-" else "+") +:+
  (if Z.abs ex <? 10 then "0" else "") +:+ str_of_Z (Z.abs ex).

(** [format_float_short] for format code ['r'] with [Py_DTSF_ADD_DOT_0]:
    exponent notation when [decpt <= -4] or [decpt > 16], otherwise
    positional notation padded with zeros and closed by [".0"] when the
    value is an integer. *)
Definition format_float_short (ds : list Z) (decpt : Z) : string :=
  let n := Z.of_nat (length ds) in
  if (decpt <=? -4) || (16 <? decpt) then
    match ds with
    | nil => ""
    | d :: nil =>
        String (digit_char d) ("e" +:+ format_exponent (decpt - 1))
    | d :: rest =>
        String (digit_char d)
          ("." +:+ digits_string rest +:+ "e" +:+ format_exponent (decpt - 1))
    end
  else if decpt <=? 0 then "0." +:+ zeros (- decpt) +:+ digits_string ds
  else if decpt <? n then
    digits_string (take (Z.to_nat decpt) ds) +:+ "." +:+
    digits_string (drop (Z.to_nat decpt) ds)
  else digits_string ds +:+ zeros (decpt - n) +:+ ".0".

Definition repr_SF (x : spec_float) : string :=
  match x with
  | S754_nan => "nan"
  | S754_infinity sign => if sign then "-inf" else "inf"
  | S754_zero sign => if sign then "-0.0" else "0.0"
  | S754_finite sign m e =>
      let '(ds, decpt) := dtoa m e in
      (if sign then "-" else "") +:+ format_float_short ds decpt
  end.

(** [repr(x)], which is also [str(x)] and what an f-string field [{x}]
    produces. *)
Definition float_repr (x : float) : string := repr_SF (Prim2SF x).

(** *** [float(s)] for a string

    [PyFloat_FromString]: strip the white space, drop the underscores that
    stand between two digits, then read a decimal numeral with
    [_Py_dg_strtod] or one of [inf], [infinity], [nan]; the whole string
    must be consumed. The numeral is rounded to the nearest float, ties to
    even. ([_Py_dg_strtod] saturates the exponent at 1100000000, which
    cannot be observed on a numeral of fewer than 10^9 digits.) *)

Definition is_space (c : ascii) : bool :=
  let n := code c in
  ((9 <=? n) && (n <=? 13)) || (n =? 32) || (n =? 133) || (n =? 160).

Fixpoint lstrip (l : list ascii) : list ascii :=
  match l with
  | c :: l' => if is_space c then lstrip l' else l
  | nil => nil
  end.

Definition rstrip (l : list ascii) : list ascii := rev (lstrip (rev l)).

Definition is_underscore (c : ascii) : bool := code c =? 95.

(** [_Py_string_to_number_with_underscores]: an underscore is allowed only
    after a digit and before a digit. *)
Fixpoint strip_underscores (prev : ascii) (l : list ascii) : option (list ascii) :=
  match l with
  | nil => if is_underscore prev then None else Some nil
  | c :: l' =>
      if is_underscore c then
        if is_digit prev then strip_underscores c l' else None
      else if is_underscore prev && negb (is_digit c) then None
      else option_map (cons c) (strip_underscores c l')
  end.

Fixpoint span_digits (l : list ascii) : list ascii * list ascii :=
  match l with
  | c :: l' =>
      if is_digit c then let '(ds, r) := span_digits l' in (c :: ds, r)
      else (nil, l)
  | nil => (nil, nil)
  end.

Definition parse_sign (l : list ascii) : bool * list ascii :=
  match l with
  | c :: l' =>
      if code c =? 45 then (true, l')
      else if code c =? 43 then (false, l')
      else (false, l)
  | nil => (false, nil)
  end.

(** The exponent part: [e] or [E], an optional sign, at least one digit.
    A malformed exponent is not consumed. *)
Definition parse_exponent (l : list ascii) : Z * list ascii :=
  match l with
  | c :: l1 =>
      if code (lower c) =? 101 then
        let '(neg, l2) := parse_sign l1 in
        let '(ds, r) := span_digits l2 in
        match ds with
        | nil => (0, l)
        | _ => ((if neg then - digits_value ds else digits_value ds), r)
        end
      else (0, l)
  | nil => (0, nil)
  end.

(** The unsigned numeral [d * 10^ex] and what follows it. *)
Definition parse_decimal (l : list ascii) : option (Z * Z * list ascii) :=
  let '(ip, r1) := span_digits l in
  let '(fp, r2) :=
    match r1 with
    | c :: r => if code c =? 46 then span_digits r else (nil, r1)
    | nil => (nil, r1)
    end in
  match ip ++ fp with
  | nil => None
  | ds =>
      let '(ex, r3) := parse_exponent r2 in
      Some (digits_value ds, ex - Z.of_nat (length fp), r3)
  end.

Fixpoint match_lower (pat l : list ascii) : option (list ascii) :=
  match pat with
  | nil => Some l
  | p :: pat' =>
      match l with
      | c :: l' => if Ascii.eqb (lower c) p then match_lower pat' l' else None
      | nil => None
      end
  end.

(** [_Py_parse_inf_or_nan]. *)
Definition parse_inf_or_nan (l : list ascii) : option (spec_float * list ascii) :=
  let '(neg, l1) := parse_sign l in
  match match_lower (list_of_string "inf") l1 with
  | Some r =>
      match match_lower (list_of_string "inity") r with
      | Some r' => Some (S754_infinity neg, r')
      | None => Some (S754_infinity neg, r)
      end
  | None =>
      match match_lower (list_of_string "nan") l1 with
      | Some r => Some (S754_nan, r)
      | None => None
      end
  end.

(** The float nearest to [(-1)^neg * d * 10^ex]. *)
Definition round_decimal (neg : bool) (d ex : Z) : spec_float :=
  match d with
  | Zpos p =>
      if 0 <=? ex then binary_round prec emax neg (Z.to_pos (Zpos p * 10 ^ ex)) 0
      else SFdiv prec emax (S754_finite neg p 0)
                           (S754_finite false (Z.to_pos (10 ^ (- ex))) 0)
  | _ => S754_zero neg
  end.

Definition float_of_str (s : string) : option float :=
  match rstrip (lstrip (list_of_string s)) with
  | nil => None
  | l0 =>
      match strip_underscores Ascii.zero l0 with
      | None => None
      | Some l =>
          let '(neg, l1) := parse_sign l in
          match parse_decimal l1 with
          | Some (d, ex, nil) => Some (SF2Prim (round_decimal neg d ex))
          | Some (_, _, _ :: _) => None
          | None =>
              match parse_inf_or_nan l with
              | Some (x, nil) => Some (SF2Prim x)
              | _ => None
              end
          end
      end
  end.

(** [float(n)] for an integer: the nearest float, or [OverflowError]
    ([None]) when that would be an infinity. *)
Definition float_of_int (n : Z) : option float :=
  match binary_normalize prec emax n 0 false with
  | S754_infinity _ => None
  | x => Some (SF2Prim x)
  end.

(** [bool(x)]: a float is false exactly when it compares equal to zero. *)
Definition float_bool (x : float) : bool := negb (PrimFloat.eqb x 0%float).

End PyFloat.

(** ** Calendar dates and instants *)

Module PyDate.
Import PyStr.

(** A [datetime.date]. *)
Record date := mkdate { year : Z; month : Z; day : Z }.

Definition is_leap (y : Z) : bool :=
  ((y mod 4 =? 0) && negb (y mod 100 =? 0)) || (y mod 400 =? 0).

Definition days_in_month (y m : Z) : Z :=
  if m =? 2 then (if is_leap y then 29 else 28)
  else if (m =? 4) || (m =? 6) || (m =? 9) || (m =? 11) then 30
  else 31.

Definition in_range (lo hi : Z) (c : ascii) : bool :=
  (lo <=? code c) && (code c <=? hi).

(** The regular expression [_strptime] derives from ["%Y-%m-%d"] is
    [(?P<Y>\d\d\d\d)-(?P<m>1[0-2]|0[1-9]|[1-9])-(?P<d>3[0-1]|[1-2]\d|0[1-9]|[1-9]| [1-9])];
    the alternatives are tried in order, and after each group comes either a
    literal hyphen or the end of the pattern, so the first alternative that
    matches is the one the match keeps. *)
Definition match_Y (l : list ascii) : option (Z * list ascii) :=
  match l with
  | a :: b :: c :: d :: r =>
      if is_digit a && is_digit b && is_digit c && is_digit d
      then Some (digits_value (a :: b :: c :: d :: nil), r)
      else None
  | _ => None
  end.

Definition match_m (l : list ascii) : option (Z * list ascii) :=
  match l with
  | a :: r =>
      match r with
      | b :: r' =>
          if (code a =? 49) && in_range 48 50 b then Some (10 + digit_val b, r')
          else if (code a =? 48) && in_range 49 57 b then Some (digit_val b, r')
          else if in_range 49 57 a then Some (digit_val a, r)
          else None
      | nil => if in_range 49 57 a then Some (digit_val a, r) else None
      end
  | nil => None
  end.

Definition match_d (l : list ascii) : option (Z * list ascii) :=
  match l with
  | a :: r =>
      match r with
      | b :: r' =>
          if (code a =? 51) && in_range 48 49 b then Some (30 + digit_val b, r')
          else if in_range 49 50 a && is_digit b
               then Some (10 * digit_val a + digit_val b, r')
          else if (code a =? 48) && in_range 49 57 b then Some (digit_val b, r')
          else if in_range 49 57 a then Some (digit_val a, r)
          else if (code a =? 32) && in_range 49 57 b then Some (digit_val b, r')
          else None
      | nil => if in_range 49 57 a then Some (digit_val a, r) else None
      end
  | nil => None
  end.

Definition match_hyphen (l : list ascii) : option (list ascii) :=
  match l with
  | c :: r => if code c =? 45 then Some r else None
  | nil => None
  end.

(** Why [strptime] raised [ValueError]. *)
Inductive strptime_error :=
  | NoMatch
  | Unconverted (rest : string)
  | YearOutOfRange (y : Z)
  | DayOutOfRange.

(** [datetime.datetime.strptime(s, "%Y-%m-%d").date()] for a string [s]. *)
Definition strptime (s : string) : strptime_error + date :=
  match match_Y (list_of_string s) with
  | Some (y, r) =>
      match match_hyphen r with
      | Some r =>
          match match_m r with
          | Some (m, r) =>
              match match_hyphen r with
              | Some r =>
                  match match_d r with
                  | Some (d, nil) =>
                      if y <? 1 then inl (YearOutOfRange y)
                      else if days_in_month y m <? d then inl DayOutOfRange
                      else inr (mkdate y m d)
                  | Some (_, rest) => inl (Unconverted (string_of_list rest))
                  | None => inl NoMatch
                  end
              | None => inl NoMatch
              end
          | None => inl NoMatch
          end
      | None => inl NoMatch
      end
  | None => inl NoMatch
  end.

(** [a > b] on dates. *)
Definition date_gt (a b : date) : bool :=
  (year b <? year a) ||
  ((year b =? year a) &&
   ((month b <? month a) || ((month b =? month a) && (day b <? day a)))).

(** A non-negative number left-padded with zeros to [width] characters. *)
Definition zero_pad (width : nat) (n : Z) : string :=
  let s := str_of_Z n in
  string_of_list (repeat "0"%char (width - String.length s)) +:+ s.

(** [d.strftime("%Y-%m-%d")]. (The C library underneath pads the year to
    four digits on the years [1000..9999]; below that some platforms print
    fewer digits. The result only travels to the upstream API.) *)
Definition strftime (d : date) : string :=
  zero_pad 4 (year d) +:+ "-" +:+ zero_pad 2 (month d) +:+ "-" +:+ zero_pad 2 (day d).

(** The civil date of a day number counted from 1970-01-01. *)
Definition civil_from_days (z : Z) : date :=
  let z := z + 719468 in
  let era := z / 146097 in
  let doe := z - era * 146097 in
  let yoe := (doe - doe / 1460 + doe / 36524 - doe / 146096) / 365 in
  let y := yoe + era * 400 in
  let doy := doe - (365 * yoe + yoe / 4 - yoe / 100) in
  let mp := (5 * doy + 2) / 153 in
  let d := doy - (153 * mp + 2) / 5 + 1 in
  let m := if mp <? 10 then mp + 3 else mp - 9 in
  mkdate (if m <=? 2 then y + 1 else y) m d.

(** [pandas.to_datetime(t, unit="s", utc=True)]: the instant [t] seconds
    after the epoch, which must fit pandas' signed 64-bit count of
    nanoseconds; otherwise [OutOfBoundsDatetime], a [ValueError]. *)
Definition to_datetime (t : Z) : option Z :=
  if (-9223372036 <=? t) && (t <=? 9223372036) then Some t else None.

(** [pandas.date_range(start, end, freq, inclusive="left")] for a positive
    step: the instants [start + i * freq] that lie before [end]. *)
Definition date_range (start stop : Z) (freq : positive) : list Z :=
  let n := (stop - start + Zpos freq - 1) / Zpos freq in
  map (fun i => start + Z.of_nat i * Zpos freq) (seq 0 (Z.to_nat n)).

(** [DatetimeIndex.strftime('%Y-%m-%d')] on one UTC instant. *)
Definition strftime_instant (t : Z) : string :=
  strftime (civil_from_days (t / 86400)).

End PyDate.

(** ** Python values, as decoded from and encoded to JSON *)

Module Py.
Import PyStr.

Inductive pyval :=
  | PNone
  | PBool (b : bool)
  | PInt (n : Z)
  | PFloat (x : float)
  | PStr (s : string)
  | PList (l : list pyval)
  | PDict (d : list (string * pyval)).

(** [bool(v)]. *)
Definition truthy (v : pyval) : bool :=
  match v with
  | PNone => false
  | PBool b => b
  | PInt n => negb (n =? 0)
  | PFloat x => PyFloat.float_bool x
  | PStr s => negb (String.eqb s "")
  | PList l => match l with nil => false | _ => true end
  | PDict d => match d with nil => false | _ => true end
  end.

(** [all(l)]. *)
Definition all (l : list pyval) : bool := forallb truthy l.

(** [type(v).__name__]. *)
Definition type_name (v : pyval) : string :=
  match v with
  | PNone => "NoneType"
  | PBool _ => "bool"
  | PInt _ => "int"
  | PFloat _ => "float"
  | PStr _ => "str"
  | PList _ => "list"
  | PDict _ => "dict"
  end.

(** [d.get(key)] on the entries of a dict: [None] when the key is absent. *)
Fixpoint dict_get (d : list (string * pyval)) (key : string) : pyval :=
  match d with
  | nil => PNone
  | (k, v) :: d' => if String.eqb k key then v else dict_get d' key
  end.

(** Is the key present? *)
Definition dict_has (d : list (string * pyval)) (key : string) : bool :=
  existsb (fun kv => String.eqb (fst kv) key) d.

(** [repr(s)] of a string. *)
Definition repr_char (quote : ascii) (c : ascii) : string :=
  let n := code c in
  if (Ascii.eqb c quote) || (n =? 92) then String (chr 92) (String c "")
  else if n =? 9 then "\t"
  else if n =? 10 then "\n"
  else if n =? 13 then "\r"
  else if (n <? 32) || ((127 <=? n) && (n <=? 160)) || (n =? 173)
       then "\x" +:+ hex2 n
  else String c "".

Definition has_char (n : Z) (s : string) : bool :=
  existsb (fun c => code c =? n) (list_of_string s).

Definition str_repr (s : string) : string :=
  let quote := if has_char 39 s && negb (has_char 34 s) then chr 34 else chr 39 in
  String quote
    (String.concat "" (map (repr_char quote) (list_of_string s)) +:+ String quote "").

(** [json.dumps] of a string, with [ensure_ascii]. *)
Definition json_char (c : ascii) : string :=
  let n := code c in
  if n =? 34 then String (chr 92) (String (chr 34) "")
  else if n =? 92 then String (chr 92) (String (chr 92) "")
  else if n =? 10 then "\n"
  else if n =? 13 then "\r"
  else if n =? 9 then "\t"
  else if n =? 8 then "\b"
  else if n =? 12 then "\f"
  else if (n <? 32) || (126 <? n) then "\u00" +:+ hex2 n
  else String c "".

Definition json_string (s : string) : string :=
  String (chr 34)
    (String.concat "" (map json_char (list_of_string s)) +:+ String (chr 34) "").

(** [json.dumps] of a float: [float.__repr__], except for the three
    non-finite values. *)
Definition json_float (x : float) : string :=
  match Prim2SF x with
  | S754_nan => "NaN"
  | S754_infinity sign => if sign then "-Infinity" else "Infinity"
  | _ => PyFloat.float_repr x
  end.

(** [json.dumps(v)] with the default separators. *)
Fixpoint json_dumps (v : pyval) : string :=
  match v with
  | PNone => "null"
  | PBool b => if b then "true" else "false"
  | PInt n => str_of_Z n
  | PFloat x => json_float x
  | PStr s => json_string s
  | PList l => "[" +:+ join ", " (map json_dumps l) +:+ "]"
  | PDict d =>
      "{" +:+
      join ", " (map (fun kv => json_string (fst kv) +:+ ": " +:+ json_dumps (snd kv)) d)
      +:+ "}"
  end.

End Py.

(** ** The application: [src/app.py] *)

Module App.
Import PyStr PyDate Py.

(** *** Exceptions and results *)

(** The two [except] clauses of the handlers tell [ValueError] (with its
    subclasses) from every other [Exception]; [str(e)] is the message. *)
Inductive exn :=
  | ValueError (msg : string)
  | OtherError (msg : string).

Inductive result (A : Type) :=
  | Ok (a : A)
  | Raise (e : exn).
Arguments Ok {A} a.
Arguments Raise {A} e.

(** *** Interpreter primitives that may raise *)

(** [repr(v)] and [str(v)]. *)
Fixpoint py_repr (v : pyval) : string :=
  match v with
  | PNone => "None"
  | PBool b => if b then "True" else "False"
  | PInt n => str_of_Z n
  | PFloat x => PyFloat.float_repr x
  | PStr s => str_repr s
  | PList l => "[" +:+ join ", " (map py_repr l) +:+ "]"
  | PDict d =>
      "{" +:+
      join ", " (map (fun kv => str_repr (fst kv) +:+ ": " +:+ py_repr (snd kv)) d)
      +:+ "}"
  end.

Definition py_str (v : pyval) : string :=
  match v with
  | PStr s => s
  | _ => py_repr v
  end.

(** [data.get(key)]: only a dict has the method. *)
Definition get (data : pyval) (key : string) : result pyval :=
  match data with
  | PDict d => Ok (dict_get d key)
  | _ => Raise (OtherError ("'" +:+ type_name data +:+ "' object has no attribute 'get'"))
  end.

(** [float(v)]. *)
Definition builtin_float (v : pyval) : result float :=
  match v with
  | PFloat x => Ok x
  | PInt n =>
      match PyFloat.float_of_int n with
      | Some x => Ok x
      | None => Raise (OtherError "int too large to convert to float")
      end
  | PBool b => Ok (if b then 1%float else 0%float)
  | PStr s =>
      match PyFloat.float_of_str s with
      | Some x => Ok x
      | None => Raise (ValueError ("could not convert string to float: " +:+ str_repr s))
      end
  | _ =>
      Raise (OtherError ("float() argument must be a string or a real number, not '"
                         +:+ type_name v +:+ "'"))
  end.

Definition strptime_message (s : string) (err : strptime_error) : string :=
  match err with
  | NoMatch => "time data " +:+ str_repr s +:+ " does not match format '%Y-%m-%d'"
  | Unconverted rest => "unconverted data remains: " +:+ rest
  | YearOutOfRange y => "year " +:+ str_of_Z y +:+ " is out of range"
  | DayOutOfRange => "day is out of range for month"
  end.

(** [datetime.datetime.strptime(v, "%Y-%m-%d").date()]. *)
Definition datetime_strptime (v : pyval) : result date :=
  match v with
  | PStr s =>
      match strptime s with
      | inr d => Ok d
      | inl err => Raise (ValueError (strptime_message s err))
      end
  | _ => Raise (OtherError ("strptime() argument 1 must be str, not " +:+ type_name v))
  end.

(** *** The outside world *)

(** The query sent to the archive API (the [params] dict). *)
Record Params := mkParams {
  p_latitude : float;
  p_longitude : float;
  p_start_date : string;
  p_end_date : string;
  p_daily : list string;
  p_timezone : string
}.

(** The daily block of an upstream response: [Time()], [TimeEnd()],
    [Interval()] (a positive number of seconds) and the columns
    [Variables(i).ValuesAsNumpy()]. *)
Record VariablesWithTime := mkDaily {
  Time : Z;
  TimeEnd : Z;
  Interval : positive;
  Variables : list (list float)
}.

Record WeatherApiResponse := mkResponse {
  Latitude : float;
  Longitude : float;
  Daily : VariablesWithTime
}.

(** The requests the storage client sends to the bucket. *)
Inductive gcs_call :=
  | NewClient
  | GetBucket
  | ListBlobs
  | BlobExists (name : string)
  | DownloadAsText (name : string)
  | UploadFromString (name : string) (content : string).

(** What lies outside the program. [weather_api] is
    [openmeteo.weather_api] with its cache and retries: it answers with a
    list of responses or raises. [gcs_fault] tells which bucket requests
    fail in transport or authorisation, and with what exception.
    [json_loads] is the decoder of the [json] module, [None] standing for
    [JSONDecodeError]. *)
Record Env := mkEnv {
  weather_api : string -> Params -> result (list WeatherApiResponse);
  gcs_fault : gcs_call -> option exn;
  json_loads : string -> option pyval
}.

Inductive event :=
  | UpstreamRequest (url : string) (p : Params)
  | GcsRequest (c : gcs_call).

(** The objects of the bucket, by name, and the external requests made so
    far, latest first. *)
Record World := mkWorld {
  bucket : gmap string string;
  calls : list event
}.

(** *** Computations that read and change the world and may raise *)

Definition M (A : Type) : Type := World -> result A * World.

Definition ret {A} (a : A) : M A := fun w => (Ok a, w).

Definition lift {A} (r : result A) : M A := fun w => (r, w).

Definition bind {A B} (m : M A) (k : A -> M B) : M B :=
  fun w =>
    match m w with
    | (Ok a, w') => k a w'
    | (Raise e, w') => (Raise e, w')
    end.

Notation "x <- m ;; k" := (bind m (fun x => k))
  (at level 100, m at next level, right associativity).

Definition log (ev : event) : M unit :=
  fun w => (Ok tt, mkWorld (bucket w) (ev :: calls w)).

(** One request to the bucket: logged, then failed if the environment says
    so, otherwise answered by [action]. *)
Definition gcs {A} (env : Env) (c : gcs_call) (action : M A) : M A :=
  _ <- log (GcsRequest c) ;;
  match gcs_fault env c with
  | Some e => lift (Raise e)
  | None => action
  end.

Definition upload_from_string (env : Env) (name content : string) : M unit :=
  gcs env (UploadFromString name content)
    (fun w => (Ok tt, mkWorld (<[name := content]> (bucket w)) (calls w))).

Definition blob_exists (env : Env) (name : string) : M bool :=
  gcs env (BlobExists name)
    (fun w => (Ok (bool_decide (is_Some (bucket w !! name))), w)).

Definition download_as_text (env : Env) (name : string) : M string :=
  gcs env (DownloadAsText name)
    (fun w =>
       match bucket w !! name with
       | Some content => (Ok content, w)
       | None => (Raise (OtherError ("404 No such object: " +:+ name)), w)
       end).

Definition list_blobs (env : Env) : M (list string) :=
  gcs env ListBlobs (fun w => (Ok (elements (dom (bucket w))), w)).

Definition call_weather_api (env : Env) (url : string) (p : Params)
  : M (list WeatherApiResponse) :=
  _ <- log (UpstreamRequest url p) ;;
  lift (weather_api env url p).

(** *** Requests and responses *)

(** What [request.get_json()] does on the incoming request: the decoded
    body, or the exception werkzeug raises on a body that is not JSON. *)
Record Request := mkRequest { get_json : result pyval }.

(** [jsonify(body), status]. *)
Record Response := mkResp { body : pyval; status : Z }.

Definition error_body (msg : string) : pyval := PDict (("error", PStr msg) :: nil).

Definition url : string := "https://archive-api.open-meteo.com/v1/archive".

Definition daily_variables : list string :=
  "temperature_2m_max" :: "temperature_2m_min" :: "temperature_2m_mean" ::
  "apparent_temperature_max" :: "apparent_temperature_min" ::
  "apparent_temperature_mean" :: nil.

(** *** [store_weather_data], lines 38-55: parsing and validation *)

(** The local variables that leave the validation. *)
Record Validated := mkValidated {
  latitude : float;
  longitude : float;
  start_date_string : pyval;
  end_date_string : pyval;
  start_date_object : date;
  end_date_object : date
}.

Definition rbind {A B} (r : result A) (k : A -> result B) : result B :=
  match r with
  | Ok a => k a
  | Raise e => Raise e
  end.

Notation "x <-- r ;; k" := (rbind r (fun x => k))
  (at level 100, r at next level, right associativity).

(** Either the handler returns a response at once ([inl]) or goes on with
    the validated variables ([inr]); an exception is a [Raise]. *)
Definition validate (req : Request) : result (Response + Validated) :=
  data <-- get_json req ;;
  if negb (truthy data) then Ok (inl (mkResp (error_body "Invalid JSON payload") 400))
  else
    lat <-- get data "latitude" ;;
    latitude <-- builtin_float lat ;;
    lon <-- get data "longitude" ;;
    longitude <-- builtin_float lon ;;
    start_date_string <-- get data "start_date" ;;
    end_date_string <-- get data "end_date" ;;
    if negb (all (PFloat latitude :: PFloat longitude ::
                  start_date_string :: end_date_string :: nil))
    then Ok (inl (mkResp (error_body "Missing required parameters") 400))
    else
      start_date_object <-- datetime_strptime start_date_string ;;
      end_date_object <-- datetime_strptime end_date_string ;;
      if date_gt start_date_object end_date_object
      then Ok (inl (mkResp (error_body "Start date must be before end date") 400))
      else Ok (inr (mkValidated latitude longitude start_date_string end_date_string
                                start_date_object end_date_object)).

(** *** Lines 57-72: the query *)

Definition params (v : Validated) : Params :=
  mkParams (latitude v) (longitude v)
           (strftime (start_date_object v)) (strftime (end_date_object v))
           daily_variables "auto".

(** *** Lines 83-96: the series reshaper *)

Definition pd_to_datetime (t : Z) : result Z :=
  match to_datetime t with
  | Some i => Ok i
  | None =>
      Raise (ValueError ("cannot convert input " +:+ str_of_Z t +:+ " with the unit 's'"))
  end.

(** [daily.Variables(i).ValuesAsNumpy().tolist()]: [Variables(i)] is [None]
    beyond the columns of the block. *)
Definition values (daily : VariablesWithTime) (i : nat) : result (list float) :=
  match nth_error (Variables daily) i with
  | Some column => Ok column
  | None => Raise (OtherError "'NoneType' object has no attribute 'ValuesAsNumpy'")
  end.

Definition float_list (column : list float) : pyval := PList (map PFloat column).

(** The generated dates. *)
Definition dates (daily : VariablesWithTime) : result (list string) :=
  start <-- pd_to_datetime (Time daily) ;;
  stop <-- pd_to_datetime (TimeEnd daily) ;;
  Ok (map strftime_instant (date_range start stop (Interval daily))).

Definition daily_data (daily : VariablesWithTime) : result pyval :=
  date <-- dates daily ;;
  v0 <-- values daily 0 ;;
  v1 <-- values daily 1 ;;
  v2 <-- values daily 2 ;;
  v3 <-- values daily 3 ;;
  v4 <-- values daily 4 ;;
  v5 <-- values daily 5 ;;
  Ok (PDict (("date", PList (map PStr date)) ::
             ("temperature_2m_max", float_list v0) ::
             ("temperature_2m_min", float_list v1) ::
             ("temperature_2m_mean", float_list v2) ::
             ("apparent_temperature_max", float_list v3) ::
             ("apparent_temperature_min", float_list v4) ::
             ("apparent_temperature_mean", float_list v5) :: nil)).

(** *** Lines 99-106: the record and its key *)

Definition file_data (response_data : WeatherApiResponse) (v : Validated)
  (daily_data : pyval) : pyval :=
  PDict (("latitude", PFloat (Latitude response_data)) ::
         ("longitude", PFloat (Longitude response_data)) ::
         ("start_date", start_date_string v) ::
         ("end_date", end_date_string v) ::
         ("daily_data", daily_data) :: nil).

(** The f-string of line 106. *)
Definition file_name (latitude longitude : float)
  (start_date_string end_date_string : pyval) : string :=
  "weather_data_" +:+ PyFloat.float_repr latitude +:+ "_" +:+
  PyFloat.float_repr longitude +:+ "_" +:+ py_str start_date_string +:+ "_to_" +:+
  py_str end_date_string +:+ ".json".

(** *** Lines 74-116: fetch, reshape, store *)

Definition fetch_and_store (env : Env) (v : Validated) : M Response :=
  response <- call_weather_api env url (params v) ;;
  match response with
  | nil => ret (mkResp (error_body "Failed to fetch data from Open-Meteo API") 502)
  | response_data :: _ =>
      dd <- lift (daily_data (Daily response_data)) ;;
      let name := file_name (latitude v) (longitude v)
                            (start_date_string v) (end_date_string v) in
      _ <- upload_from_string env name (json_dumps (file_data response_data v dd)) ;;
      ret (mkResp (PDict (("message", PStr "Data stored successfully in GCS") ::
                          ("file_name", PStr name) :: nil)) 200)
  end.

(** The two [except] clauses at the end of [store_weather_data]. *)
Definition store_except (e : exn) : Response :=
  match e with
  | ValueError msg => mkResp (error_body msg) 400
  | OtherError msg => mkResp (error_body ("An unexpected error occurred: " +:+ msg)) 500
  end.

(** The single [except Exception] clause of the two reading handlers. *)
Definition read_except (e : exn) : Response :=
  match e with
  | ValueError msg | OtherError msg => mkResp (error_body msg) 500
  end.

Definition handle (on_error : exn -> Response) (m : M Response)
  : World -> Response * World :=
  fun w =>
    match m w with
    | (Ok r, w') => (r, w')
    | (Raise e, w') => (on_error e, w')
    end.

(** [POST /store-weather-data]. *)
Definition store_weather_data (env : Env) (req : Request) : World -> Response * World :=
  handle store_except
    (r <- lift (validate req) ;;
     match r with
     | inl early => ret early
     | inr v => fetch_and_store env v
     end).

(** [GET /list-weather-files]. *)
Definition list_weather_files (env : Env) : World -> Response * World :=
  handle read_except
    (_ <- gcs env NewClient (ret tt) ;;
     _ <- gcs env GetBucket (ret tt) ;;
     files <- list_blobs env ;;
     ret (mkResp (PList (map PStr files)) 200)).

(** [GET /weather-file-content/<file_name>]. *)
Definition get_weather_file_content (env : Env) (file_name : string)
  : World -> Response * World :=
  handle read_except
    (_ <- gcs env NewClient (ret tt) ;;
     _ <- gcs env GetBucket (ret tt) ;;
     found <- blob_exists env file_name ;;
     if negb found then ret (mkResp (error_body "File not found.") 404)
     else
       content <- download_as_text env file_name ;;
       match json_loads env content with
       | Some decoded => ret (mkResp decoded 200)
       | None => lift (Raise (ValueError "Expecting value: line 1 column 1 (char 0)"))
       end).

End App.

(** ** Vocabulary of the statements and sample worlds *)

Import PyStr PyFloat PyDate Py App.

(** The four ways [fetch_and_store] can end. *)
Inductive fetch_outcome (env : Env) (v : Validated) (w : World) : Response * World -> Prop :=
  | FetchRaises e :
      weather_api env url (params v) = Raise e ->
      fetch_outcome env v w
        (store_except e, mkWorld (bucket w) (UpstreamRequest url (params v) :: calls w))
  | FetchEmpty :
      weather_api env url (params v) = Ok nil ->
      fetch_outcome env v w
        (mkResp (error_body "Failed to fetch data from Open-Meteo API") 502,
         mkWorld (bucket w) (UpstreamRequest url (params v) :: calls w))
  | ReshapeRaises r0 rest e :
      weather_api env url (params v) = Ok (r0 :: rest) ->
      daily_data (Daily r0) = Raise e ->
      fetch_outcome env v w
        (store_except e, mkWorld (bucket w) (UpstreamRequest url (params v) :: calls w))
  | UploadRaises r0 rest dd e :
      weather_api env url (params v) = Ok (r0 :: rest) ->
      daily_data (Daily r0) = Ok dd ->
      let name := file_name (latitude v) (longitude v)
                            (start_date_string v) (end_date_string v) in
      let content := json_dumps (file_data r0 v dd) in
      gcs_fault env (UploadFromString name content) = Some e ->
      fetch_outcome env v w
        (store_except e,
         mkWorld (bucket w)
           (GcsRequest (UploadFromString name content) ::
            UpstreamRequest url (params v) :: calls w))
  | Stored r0 rest dd :
      weather_api env url (params v) = Ok (r0 :: rest) ->
      daily_data (Daily r0) = Ok dd ->
      let name := file_name (latitude v) (longitude v)
                            (start_date_string v) (end_date_string v) in
      let content := json_dumps (file_data r0 v dd) in
      gcs_fault env (UploadFromString name content) = None ->
      fetch_outcome env v w
        (mkResp (PDict (("message", PStr "Data stored successfully in GCS") ::
                        ("file_name", PStr name) :: nil)) 200,
         mkWorld (<[name := content]> (bucket w))
           (GcsRequest (UploadFromString name content) ::
            UpstreamRequest url (params v) :: calls w)).

(** An upstream that answers every query with a two-day block for Berlin, a
    bucket transport that never fails. *)
Definition env_ok : Env :=
  mkEnv (fun _ _ =>
           Ok (mkResponse 52.54833%float 13.407822%float
                 (mkDaily 1672531200 1672704000 86400
                    ((1.5 :: 2.5 :: nil) :: (0.5 :: 1.5 :: nil) :: (1 :: 2 :: nil) ::
                     (1.5 :: 2.5 :: nil) :: (0.5 :: 1.5 :: nil) :: (1 :: 2 :: nil) :: nil)%float)
               :: nil))
        (fun _ => None)
        (fun _ => None).

(** An empty bucket, nothing requested yet. *)
Definition world0 : World := mkWorld ∅ nil.

(** The request body of the specification's scenario, with chosen dates. *)
Definition body_berlin (start_date end_date : string) : pyval :=
  PDict (("latitude", PFloat 52.52) :: ("longitude", PFloat 13.405) ::
         ("start_date", PStr start_date) :: ("end_date", PStr end_date) :: nil).

(** The upstream answers a one-day query with the one day asked for. *)
Definition env_one_day : Env :=
  mkEnv (fun _ _ =>
           Ok (mkResponse 52.54833%float 13.407822%float
                 (mkDaily 1672531200 1672617600 86400
                    ((1.5 :: nil) :: (0.5 :: nil) :: (1 :: nil) ::
                     (1.5 :: nil) :: (0.5 :: nil) :: (1 :: nil) :: nil)%float)
               :: nil))
        (fun _ => None)
        (fun _ => None).

(** A bucket that already holds one object. *)
Definition world1 : World :=
  mkWorld {[ "weather_data_1.0_2.0_2020-01-01_to_2020-01-02.json"%string := "{}"%string ]} nil.

(** An upstream that cannot be reached. *)
Definition env_upstream_down : Env :=
  mkEnv (fun _ _ => Raise (OtherError "failed to resolve archive-api.open-meteo.com"))
        (fun _ => None) (fun _ => None).

(** The shape [YYYY-MM-DD]: four digits, a hyphen, two digits, a hyphen, two
    digits. *)
Definition is_iso_date (s : string) : bool :=
  match list_of_string s with
  | y1 :: y2 :: y3 :: y4 :: h1 :: m1 :: m2 :: h2 :: d1 :: d2 :: nil =>
      is_digit y1 && is_digit y2 && is_digit y3 && is_digit y4 && (code h1 =? 45) &&
      is_digit m1 && is_digit m2 && (code h2 =? 45) && is_digit d1 && is_digit d2
  | _ => false
  end.

(** [width] decimal digits and nothing else. *)
Definition is_digits (width : nat) (s : string) : bool :=
  (String.length s =? width)%nat && forallb is_digit (list_of_string s).

(** [P] holds on the [n] integers from [lo] on. *)
Fixpoint all_from (P : Z -> bool) (lo : Z) (n : nat) : bool :=
  match n with
  | O => true
  | S n' => P lo && all_from P (lo + 1) n'
  end.

(** The daily block of [env_ok]. *)
Definition daily_two_days : VariablesWithTime :=
  mkDaily 1672531200 1672704000 86400
    ((1.5 :: 2.5 :: nil) :: (0.5 :: 1.5 :: nil) :: (1 :: 2 :: nil) ::
     (1.5 :: 2.5 :: nil) :: (0.5 :: 1.5 :: nil) :: (1 :: 2 :: nil) :: nil)%float.

(** The upstream sends a first column shorter than the two dates. *)
Definition env_ragged : Env :=
  mkEnv (fun _ _ =>
           Ok (mkResponse 52.54833%float 13.407822%float
                 (mkDaily 1672531200 1672704000 86400
                    ((1.5 :: nil) :: (0.5 :: 1.5 :: nil) :: (1 :: 2 :: nil) ::
                     (1.5 :: 2.5 :: nil) :: (0.5 :: 1.5 :: nil) :: (1 :: 2 :: nil) :: nil)%float)
               :: nil))
        (fun _ => None)
        (fun _ => None).

(** A decoder that knows the empty object only, for the worlds below. *)
Definition env_reader : Env :=
  mkEnv (fun _ _ => Ok nil)
        (fun _ => None)
        (fun content => if String.eqb content "{}" then Some (PDict nil) else None).

(** ** Vocabulary for the printed form of floats *)

(** The integer a run of digits denotes, most significant first. *)
Definition dval (ds : list Z) : Z := fold_left (fun a d => 10 * a + d) ds 0.

Definition digit_ok (d : Z) : Prop := 0 <= d <= 9.

(** [x <= y], strictly unless [closed]. *)
Definition bounded_by (closed : bool) (x y : Z) : Prop :=
  if closed then x <= y else x < y.

(** The real number [D * 10^t]. *)
Definition decimal (D t : Z) : R := (IZR D * powerRZ 10 t)%R.

(** The real number [m * 2^e]. *)
Definition binary (m e : Z) : R := (IZR m * powerRZ 2 e)%R.

(** [x <= y], strictly unless [closed]. *)
Definition bounded_byR (closed : bool) (x y : R) : Prop :=
  if closed then (x <= y)%R else (x < y)%R.

(** Half the distance from the float [m * 2^e] to the float below it, and to
    the float above it. *)
Definition gap_below (m : positive) (e : Z) : R :=
  powerRZ 2 (e - (if dtoa_spec_case m e then 2 else 1)).

Definition gap_above (e : Z) : R := powerRZ 2 (e - 1).

(** [v] lies in the rounding interval of the float [m * 2^e]: every real of
    the interval is read back as that float, the ends being part of it when
    the mantissa is even. *)
Definition rounds_to (m : positive) (e : Z) (v : R) : Prop :=
  bounded_byR (Z.even (Zpos m)) (binary (Zpos m) e - gap_below m e) v /\
  bounded_byR (Z.even (Zpos m)) v (binary (Zpos m) e + gap_above e).

(** The ends of the rounding interval in quarters of the unit in the last
    place. *)
Definition low_quarters (m : positive) (e : Z) : Z :=
  4 * Zpos m - (if dtoa_spec_case m e then 1 else 2).

(** *** Reading a printed float back as a real number *)
(** The part before the first [c], and the part after it when [c] occurs. *)
Fixpoint split_at (c : ascii) (l : list ascii) : list ascii * option (list ascii) :=
  match l with
  | nil => (nil, None)
  | a :: l' =>
      if Ascii.eqb a c then (nil, Some l')
      else let '(p, r) := split_at c l' in (a :: p, r)
  end.

(** The value of an exponent field: a sign character and a decimal
    numeral. *)
Definition exp_value (ex : option (list ascii)) : Z :=
  match ex with
  | Some (sign :: ds) =>
      let v := match NilZero.int_of_string (string_of_list ds) with
               | Some i => Z.of_int i
               | None => 0
               end in
      if code sign =? 45 then - v else v
  | _ => 0
  end.

(** A positional or exponent numeral read as [D * 10^t]. *)
Definition decode_numeral (l : list ascii) : Z * Z :=
  let '(mant, ex) := split_at "e" l in
  let '(ip, fp) := split_at "." mant in
  let fp := match fp with Some fp => fp | None => nil end in
  (digits_value (ip ++ fp), exp_value ex - Z.of_nat (length fp)).

Definition numeral_value (s : string) : R :=
  let '(D, t) := decode_numeral (list_of_string s) in decimal D t.

(** A leading minus sign, and what follows it. *)
Definition unsigned_part (s : string) : bool * string :=
  match s with
  | String c r => if code c =? 45 then (true, r) else (false, s)
  | EmptyString => (false, s)
  end.

Definition digits_only (l : list ascii) : Prop := Forall (fun c => is_digit c = true) l.

(** No underscore among the characters. *)
Definition no_underscore (l : list ascii) : Prop := Forall (fun c => c <> "_"%char) l.

(** ** Further sample worlds and checkers *)

(** A bucket transport that refuses every request. *)
Definition env_bucket_down : Env :=
  mkEnv (weather_api env_ok)
        (fun _ => Some (OtherError "503 Service Unavailable"))
        (fun _ => None).

(** The validated variables of the Berlin request for 1 to 3 January 2023. *)
Definition berlin_validated : Validated :=
  mkValidated 52.52 13.405 (PStr "2023-01-01") (PStr "2023-01-03")
              (mkdate 2023 1 1) (mkdate 2023 1 3).

(** The record that [env_ok] makes of that request. *)
Definition berlin_record : pyval :=
  match daily_data daily_two_days with
  | Ok dd => file_data (mkResponse 52.54833 13.407822 daily_two_days) berlin_validated dd
  | Raise _ => PNone
  end.

(** The world of [env_ok] with a decoder that knows that record. *)
Definition env_archive : Env :=
  mkEnv (weather_api env_ok) (fun _ => None)
        (fun content =>
           if String.eqb content (json_dumps berlin_record) then Some berlin_record
           else None).

(** An upstream whose block ends beyond the instants pandas can hold. *)
Definition env_far_future : Env :=
  mkEnv (fun _ _ =>
           Ok (mkResponse 52.54833%float 13.407822%float
                 (mkDaily 1672531200 9223372037 86400 nil) :: nil))
        (fun _ => None) (fun _ => None).

(** The year field of [strftime] read back by [match_Y]. *)
Definition year_field_ok (y : Z) : bool :=
  match list_of_string (zero_pad 4 y) with
  | a :: b :: c :: d :: nil =>
      is_digit a && is_digit b && is_digit c && is_digit d &&
      (digits_value (a :: b :: c :: d :: nil) =? y)
  | _ => false
  end.

(** The day field of [strftime] read back by [match_d]. *)
Definition day_field_ok (d : Z) : bool :=
  match match_d (list_of_string (zero_pad 2 d)) with
  | Some (d', nil) => d' =? d
  | _ => false
  end.

(** White space only. *)
Definition is_blank (s : string) : bool := forallb is_space (list_of_string s).

(** Two upstream answers that the handler cannot tell apart: the same
    exception, two empty lists, or two lists with the same first response. *)
Definition same_head (a b : result (list WeatherApiResponse)) : Prop :=
  match a, b with
  | Raise e, Raise e' => e = e'
  | Ok nil, Ok nil => True
  | Ok (r :: _), Ok (r' :: _) => r = r'
  | _, _ => False
  end.

(** An upstream that sends a second response after the one of [env_ok]. *)
Definition env_two_responses : Env :=
  mkEnv (fun _ _ =>
           Ok (mkResponse 52.54833 13.407822 daily_two_days ::
               mkResponse 0 0 (mkDaily 0 0 1 nil) :: nil))
        (fun _ => None)
        (fun _ => None).

(** * Properties *)

(** ** How [store_weather_data] unfolds *)

Lemma store_early env req w r :
  validate req = Ok (inl r) -> store_weather_data env req w = (r, w).
Proof. intros H. unfold store_weather_data, handle, bind, lift. now rewrite H. Qed.

Lemma store_raise env req w e :
  validate req = Raise e -> store_weather_data env req w = (store_except e, w).
Proof. intros H. unfold store_weather_data, handle, bind, lift. now rewrite H. Qed.

Lemma store_valid env req w v :
  validate req = Ok (inr v) ->
  store_weather_data env req w = handle store_except (fetch_and_store env v) w.
Proof. intros H. unfold store_weather_data, handle, bind, lift. now rewrite H. Qed.

Lemma fetch_and_store_outcome env v w :
  fetch_outcome env v w (handle store_except (fetch_and_store env v) w).
Proof.
  unfold handle, fetch_and_store, call_weather_api, upload_from_string, gcs, bind, lift, log, ret.
  cbn.
  destruct (weather_api env url (params v)) as [[|r0 rest]|e] eqn:Hapi.
  - now apply FetchEmpty.
  - destruct (daily_data (Daily r0)) as [dd|e] eqn:Hdd; cbn.
    + destruct (gcs_fault env _) as [e|] eqn:Hf; cbn.
      * eapply UploadRaises; eauto.
      * eapply Stored; eauto.
    + eapply ReshapeRaises; eauto.
  - now apply FetchRaises.
Qed.

Lemma truthy_dict_inv data :
  truthy data = true -> forall key, (exists d, data = PDict d /\ get data key = Ok (dict_get d key)) \/ (exists e, get data key = Raise e).
Proof. intros _ key. destruct data; cbn; eauto. Qed.

Lemma strptime_nonempty s d : strptime s = inr d -> s <> ""%string.
Proof. intros H ->. discriminate H. Qed.

(** What the validation established when it lets a request through. *)
Lemma validate_inr req v :
  validate req = Ok (inr v) ->
  exists d s1 s2,
    get_json req = Ok (PDict d) /\
    builtin_float (dict_get d "latitude") = Ok (latitude v) /\
    builtin_float (dict_get d "longitude") = Ok (longitude v) /\
    float_bool (latitude v) = true /\ float_bool (longitude v) = true /\
    dict_get d "start_date" = PStr s1 /\ start_date_string v = PStr s1 /\
    dict_get d "end_date" = PStr s2 /\ end_date_string v = PStr s2 /\
    strptime s1 = inr (start_date_object v) /\
    strptime s2 = inr (end_date_object v) /\
    date_gt (start_date_object v) (end_date_object v) = false.
Proof.
  unfold validate, rbind. intros H.
  destruct (get_json req) as [data|] eqn:Hj; [|discriminate].
  destruct (truthy data) eqn:Ht; cbn in H; [|discriminate].
  destruct data as [| | | | | |d]; cbn in H; try discriminate.
  destruct (builtin_float (dict_get d "latitude")) as [lat|] eqn:Hlat; [|discriminate].
  destruct (builtin_float (dict_get d "longitude")) as [lon|] eqn:Hlon; [|discriminate].
  unfold all in H. cbn [forallb truthy] in H.
  destruct (float_bool lat) eqn:Hb1; cbn in H; [|discriminate].
  destruct (float_bool lon) eqn:Hb2; cbn in H; [|discriminate].
  destruct (truthy (dict_get d "start_date") && (truthy (dict_get d "end_date") && true)) eqn:Hall;
    cbn in H; [|discriminate].
  unfold datetime_strptime in H.
  destruct (dict_get d "start_date") as [| | | |s1| |] eqn:Hs1; try discriminate.
  destruct (strptime s1) as [|d1] eqn:Hp1; [discriminate|].
  destruct (dict_get d "end_date") as [| | | |s2| |] eqn:Hs2; try discriminate.
  destruct (strptime s2) as [|d2] eqn:Hp2; [discriminate|].
  destruct (date_gt d1 d2) eqn:Hgt; [discriminate|].
  injection H as <-. cbn. exists d, s1, s2. repeat split; auto.
Qed.

Lemma float_dict_nonempty d key x : builtin_float (dict_get d key) = Ok x -> truthy (PDict d) = true.
Proof. destruct d; [discriminate|reflexivity]. Qed.

(** The validation of a body whose two coordinates convert. *)
Lemma validate_floats d lat lon :
  builtin_float (dict_get d "latitude") = Ok lat ->
  builtin_float (dict_get d "longitude") = Ok lon ->
  validate (mkRequest (Ok (PDict d))) =
    if negb (all (PFloat lat :: PFloat lon :: dict_get d "start_date" ::
                  dict_get d "end_date" :: nil))
    then Ok (inl (mkResp (error_body "Missing required parameters") 400))
    else
      rbind (datetime_strptime (dict_get d "start_date")) (fun d1 =>
      rbind (datetime_strptime (dict_get d "end_date")) (fun d2 =>
      if date_gt d1 d2
      then Ok (inl (mkResp (error_body "Start date must be before end date") 400))
      else Ok (inr (mkValidated lat lon (dict_get d "start_date") (dict_get d "end_date") d1 d2)))).
Proof.
  intros Hlat Hlon. unfold validate. cbn [get_json rbind].
  rewrite (float_dict_nonempty _ _ _ Hlat). cbn [negb get rbind].
  rewrite Hlat. cbn [rbind]. rewrite Hlon. reflexivity.
Qed.

(** C9. When the latitude or the longitude of the body converts to a float
    that compares equal to zero (and the other coordinate converts too),
    [store_weather_data] answers 400 with the error "Missing required
    parameters" and leaves the world as it was: no request to the upstream
    API, none to the bucket. The presence test is [all] on the converted
    values, and [bool] of a zero float is false. *)
Theorem zero_coordinate_is_missing env d lat lon w :
  builtin_float (dict_get d "latitude") = Ok lat ->
  builtin_float (dict_get d "longitude") = Ok lon ->
  PrimFloat.eqb lat 0 = true \/ PrimFloat.eqb lon 0 = true ->
  store_weather_data env (mkRequest (Ok (PDict d))) w =
    (mkResp (error_body "Missing required parameters") 400, w).
Proof.
  intros Hlat Hlon Hzero. apply store_early.
  rewrite (validate_floats _ _ _ Hlat Hlon).
  unfold all. cbn [forallb truthy]. unfold float_bool.
  destruct Hzero as [-> | ->]; cbn [negb andb]; [reflexivity|].
  now rewrite andb_false_r.
Qed.

Lemma zero_coordinate_is_missing_witness :
  store_weather_data env_ok
    (mkRequest (Ok (PDict (("latitude", PInt 0) :: ("longitude", PFloat 13.405) ::
                           ("start_date", PStr "2023-01-01") ::
                           ("end_date", PStr "2023-01-03") :: nil)))) world0 =
  (mkResp (error_body "Missing required parameters") 400, world0).
Proof.
  apply (zero_coordinate_is_missing env_ok _ 0%float 13.405%float world0).
  - reflexivity.
  - reflexivity.
  - left. reflexivity.
Defined.

(** C2, on the code. A body without the key [latitude] is not answered with
    the 400 of a missing parameter: [data.get] gives [None], [float(None)]
    raises [TypeError] before the presence test is reached, and the handler
    answers 500. *)
Theorem absent_latitude_is_500 env d w :
  d <> nil -> dict_get d "latitude" = PNone ->
  store_weather_data env (mkRequest (Ok (PDict d))) w =
    (mkResp (error_body
       "An unexpected error occurred: float() argument must be a string or a real number, not 'NoneType'")
       500, w).
Proof.
  intros Hd Hlat.
  rewrite (store_raise env _ w
    (OtherError "float() argument must be a string or a real number, not 'NoneType'")).
  - reflexivity.
  - unfold validate. cbn [get_json rbind]. destruct d; [contradiction|].
    cbn [truthy negb get rbind]. rewrite Hlat. reflexivity.
Qed.

Lemma absent_latitude_is_500_witness :
  store_weather_data env_ok
    (mkRequest (Ok (PDict (("longitude", PFloat 13.405) ::
                           ("start_date", PStr "2023-01-01") ::
                           ("end_date", PStr "2023-01-03") :: nil)))) world0 =
  (mkResp (error_body
     "An unexpected error occurred: float() argument must be a string or a real number, not 'NoneType'")
     500, world0).
Proof.
  apply (absent_latitude_is_500 env_ok); [discriminate | reflexivity].
Defined.

(** C3, amended. When the latitude is a string that [float] cannot read, or
    the latitude converts and the longitude is such a string, the handler
    answers 400 with the message of the [ValueError] and leaves the world as
    it was. *)
Theorem unparsable_coordinate_is_400 env d s w :
  (dict_get d "latitude" = PStr s \/
   (exists lat, builtin_float (dict_get d "latitude") = Ok lat) /\
   dict_get d "longitude" = PStr s) ->
  float_of_str s = None ->
  store_weather_data env (mkRequest (Ok (PDict d))) w =
    (mkResp (error_body ("could not convert string to float: " +:+ str_repr s)) 400, w).
Proof.
  intros Hcase Hs.
  rewrite (store_raise env _ w
    (ValueError ("could not convert string to float: " +:+ str_repr s))); [reflexivity|].
  unfold validate. cbn [get_json rbind].
  destruct Hcase as [Hlat | [[lat Hlat] Hlon]].
  - destruct d; [discriminate|]. cbn [truthy negb get rbind].
    rewrite Hlat. cbn [builtin_float]. rewrite Hs. reflexivity.
  - rewrite (float_dict_nonempty _ _ _ Hlat). cbn [negb get rbind].
    rewrite Hlat. cbn [rbind]. rewrite Hlon. cbn [builtin_float]. rewrite Hs. reflexivity.
Qed.

Lemma unparsable_coordinate_is_400_witness :
  store_weather_data env_ok
    (mkRequest (Ok (PDict (("latitude", PStr "north") :: ("longitude", PFloat 13.405) ::
                           ("start_date", PStr "2023-01-01") ::
                           ("end_date", PStr "2023-01-03") :: nil)))) world0 =
  (mkResp (error_body "could not convert string to float: 'north'") 400, world0).
Proof.
  apply (unparsable_coordinate_is_400 env_ok _ "north" world0).
  - left. reflexivity.
  - reflexivity.
Defined.

(** C3, the counterexample. The strings [inf] and [nan] are read by [float]
    as an infinity and a NaN; a request whose latitude is [inf], or whose
    longitude is [nan], is validated, sent upstream and stored with status
    200. *)
Lemma infinite_latitude_is_stored :
  float_of_str "inf" = Some infinity /\
  float_of_str "nan" = Some nan /\
  status (fst (store_weather_data env_ok
    (mkRequest (Ok (PDict (("latitude", PStr "inf") :: ("longitude", PFloat 13.405) ::
                           ("start_date", PStr "2023-01-01") ::
                           ("end_date", PStr "2023-01-03") :: nil)))) world0)) = 200 /\
  status (fst (store_weather_data env_ok
    (mkRequest (Ok (PDict (("latitude", PFloat 52.52) :: ("longitude", PStr "nan") ::
                           ("start_date", PStr "2023-01-01") ::
                           ("end_date", PStr "2023-01-03") :: nil)))) world0)) = 200.
Proof. repeat split; vm_compute; reflexivity. Qed.

Lemma date_gt_irrefl d : date_gt d d = false.
Proof.
  unfold date_gt. rewrite !Z.ltb_irrefl, !Z.eqb_refl. reflexivity.
Qed.

Lemma truthy_PStr s d : strptime s = inr d -> truthy (PStr s) = true.
Proof. intros H. destruct s; [discriminate H|reflexivity]. Qed.

(** C4, amended. For a body whose coordinates convert to non-zero floats and
    whose two dates are strings that [strptime] accepts, the validation
    returns the 400 "Start date must be before end date" exactly when the
    start date is after the end date, and the handler then answers with it
    and leaves the world as it was; otherwise, and in particular for equal
    dates, the request is validated. Nothing is said of the length of the
    series, which is the upstream's. *)
Theorem invalid_range_iff_start_after_end env d lat lon s1 s2 d1 d2 w :
  builtin_float (dict_get d "latitude") = Ok lat ->
  builtin_float (dict_get d "longitude") = Ok lon ->
  float_bool lat = true -> float_bool lon = true ->
  dict_get d "start_date" = PStr s1 -> dict_get d "end_date" = PStr s2 ->
  strptime s1 = inr d1 -> strptime s2 = inr d2 ->
  let req := mkRequest (Ok (PDict d)) in
  let invalid_range := mkResp (error_body "Start date must be before end date") 400 in
  (validate req = Ok (inl invalid_range) <-> date_gt d1 d2 = true) /\
  (date_gt d1 d2 = true -> store_weather_data env req w = (invalid_range, w)) /\
  (date_gt d1 d2 = false ->
   validate req = Ok (inr (mkValidated lat lon (PStr s1) (PStr s2) d1 d2))) /\
  (d1 = d2 -> validate req = Ok (inr (mkValidated lat lon (PStr s1) (PStr s2) d1 d2))).
Proof.
  intros Hlat Hlon Hb1 Hb2 Hs1 Hs2 Hp1 Hp2 req invalid_range.
  assert (Hv : validate req =
               if date_gt d1 d2 then Ok (inl invalid_range)
               else Ok (inr (mkValidated lat lon (PStr s1) (PStr s2) d1 d2))).
  { unfold req. rewrite (validate_floats _ _ _ Hlat Hlon). rewrite Hs1, Hs2.
    unfold all. cbn [forallb].
    rewrite (truthy_PStr _ _ Hp1), (truthy_PStr _ _ Hp2). cbn [truthy].
    rewrite Hb1, Hb2. cbn [andb negb].
    unfold datetime_strptime. rewrite Hp1, Hp2. reflexivity. }
  repeat split.
  - rewrite Hv. destruct (date_gt d1 d2); [reflexivity|discriminate].
  - intros Hgt. rewrite Hv, Hgt. reflexivity.
  - intros Hgt. apply store_early. rewrite Hv, Hgt. reflexivity.
  - intros Hgt. rewrite Hv, Hgt. reflexivity.
  - intros <-. rewrite Hv, date_gt_irrefl. reflexivity.
Qed.

Lemma invalid_range_iff_start_after_end_witness :
  let req := mkRequest (Ok (body_berlin "2023-01-03" "2023-01-01")) in
  let invalid_range := mkResp (error_body "Start date must be before end date") 400 in
  (validate req = Ok (inl invalid_range) <->
   date_gt (mkdate 2023 1 3) (mkdate 2023 1 1) = true) /\
  (date_gt (mkdate 2023 1 3) (mkdate 2023 1 1) = true ->
   store_weather_data env_ok req world0 = (invalid_range, world0)) /\
  (date_gt (mkdate 2023 1 3) (mkdate 2023 1 1) = false ->
   validate req = Ok (inr (mkValidated 52.52 13.405 (PStr "2023-01-03") (PStr "2023-01-01")
                             (mkdate 2023 1 3) (mkdate 2023 1 1)))) /\
  (mkdate 2023 1 3 = mkdate 2023 1 1 ->
   validate req = Ok (inr (mkValidated 52.52 13.405 (PStr "2023-01-03") (PStr "2023-01-01")
                             (mkdate 2023 1 3) (mkdate 2023 1 1)))).
Proof.
  apply (invalid_range_iff_start_after_end env_ok
           (("latitude", PFloat 52.52) :: ("longitude", PFloat 13.405) ::
            ("start_date", PStr "2023-01-03") :: ("end_date", PStr "2023-01-01") :: nil)
           52.52%float 13.405%float "2023-01-03" "2023-01-01"
           (mkdate 2023 1 3) (mkdate 2023 1 1) world0); reflexivity.
Defined.

(** C4, the counterexample. With equal start and end dates and an upstream
    that answers with the block of that one day, the stored series has one
    date: it is not empty. *)
Lemma equal_dates_series_not_empty :
  let run := store_weather_data env_one_day
               (mkRequest (Ok (body_berlin "2023-01-01" "2023-01-01"))) world0 in
  status (fst run) = 200 /\
  dates (mkDaily 1672531200 1672617600 86400 nil) = Ok ("2023-01-01"%string :: nil) /\
  bucket (snd run) !! "weather_data_52.52_13.405_2023-01-01_to_2023-01-01.json"%string =
    Some (json_dumps
      (PDict (("latitude", PFloat 52.54833) :: ("longitude", PFloat 13.407822) ::
              ("start_date", PStr "2023-01-01") :: ("end_date", PStr "2023-01-01") ::
              ("daily_data",
               PDict (("date", PList (PStr "2023-01-01" :: nil)) ::
                      ("temperature_2m_max", PList (PFloat 1.5 :: nil)) ::
                      ("temperature_2m_min", PList (PFloat 0.5 :: nil)) ::
                      ("temperature_2m_mean", PList (PFloat 1 :: nil)) ::
                      ("apparent_temperature_max", PList (PFloat 1.5 :: nil)) ::
                      ("apparent_temperature_min", PList (PFloat 0.5 :: nil)) ::
                      ("apparent_temperature_mean", PList (PFloat 1 :: nil)) :: nil)) :: nil))).
Proof. repeat split; vm_compute; reflexivity. Qed.

(** C10. Whenever [store_weather_data] answers with a status other than 200
    the bucket is what it was before the request. *)
Theorem failure_writes_nothing env req w :
  status (fst (store_weather_data env req w)) <> 200 ->
  bucket (snd (store_weather_data env req w)) = bucket w.
Proof.
  destruct (validate req) as [[early|v]|e] eqn:Hv.
  - rewrite (store_early env _ w _ Hv). reflexivity.
  - rewrite (store_valid env _ w _ Hv).
    destruct (fetch_and_store_outcome env v w); cbn; try reflexivity.
    intros Hne. now contradiction Hne.
  - rewrite (store_raise env _ w _ Hv). reflexivity.
Qed.

Lemma failure_writes_nothing_witness :
  bucket (snd (store_weather_data env_upstream_down
                 (mkRequest (Ok (body_berlin "2023-01-01" "2023-01-03"))) world1)) =
  bucket world1.
Proof.
  apply (failure_writes_nothing env_upstream_down). vm_compute. discriminate.
Defined.



(** *** The generated instants *)
Lemma date_range_length a b f :
  length (date_range a b f) = Z.to_nat ((b - a + Zpos f - 1) / Zpos f).
Proof. unfold date_range. now rewrite length_map, length_seq. Qed.

Lemma date_range_nth a b f i :
  (i < length (date_range a b f))%nat ->
  nth_error (date_range a b f) i = Some (a + Z.of_nat i * Zpos f).
Proof.
  intros Hi. rewrite date_range_length in Hi. unfold date_range.
  rewrite nth_error_map, nth_error_seq.
  destruct (Nat.ltb_spec i (Z.to_nat ((b - a + Z.pos f - 1) / Z.pos f))); [reflexivity|lia].
Qed.

Lemma date_range_before a b f i :
  (i < length (date_range a b f))%nat -> a + Z.of_nat i * Zpos f < b.
Proof.
  rewrite date_range_length. intros Hi.
  assert (Hq : Z.of_nat i + 1 <= (b - a + Z.pos f - 1) / Z.pos f) by lia.
  assert (Hm := Z.mul_div_le (b - a + Z.pos f - 1) (Z.pos f) ltac:(lia)).
  nia.
Qed.

Lemma date_range_complete a b f :
  b <= a + Z.of_nat (length (date_range a b f)) * Zpos f.
Proof.
  rewrite date_range_length.
  destruct (Z.le_gt_cases ((b - a + Z.pos f - 1) / Z.pos f) 0) as [Hle|Hgt].
  - replace (Z.to_nat _) with 0%nat by lia.
    assert (b - a + Z.pos f - 1 < Z.pos f); [|lia].
    apply Z.nle_gt. intros Hc. apply (Z.div_le_mono _ _ (Z.pos f)) in Hc; [|lia].
    rewrite Z.div_same in Hc by lia. lia.
  - rewrite Z2Nat.id by lia.
    assert (Hm := Z.mod_pos_bound (b - a + Z.pos f - 1) (Z.pos f) ltac:(lia)).
    assert (He := Z.div_mod (b - a + Z.pos f - 1) (Z.pos f) ltac:(lia)).
    nia.
Qed.

Lemma all_from_spec P n : forall lo z,
  all_from P lo n = true -> lo <= z < lo + Z.of_nat n -> P z = true.
Proof.
  induction n as [|n IH]; intros lo z H Hz; [lia|].
  cbn [all_from] in H. apply andb_prop in H as [H0 H1].
  destruct (Z.eq_dec z lo) as [->|Hne]; [exact H0|].
  apply (IH (lo + 1)); [exact H1|lia].
Qed.

Lemma zero_pad_2 n : 0 <= n < 100 -> is_digits 2 (zero_pad 2 n) = true.
Proof.
  intros Hn. apply (all_from_spec (fun n => is_digits 2 (zero_pad 2 n)) 100 0); [|lia].
  vm_compute. reflexivity.
Qed.

Lemma zero_pad_4 n : 1000 <= n < 3000 -> is_digits 4 (zero_pad 4 n) = true.
Proof.
  intros Hn. apply (all_from_spec (fun n => is_digits 4 (zero_pad 4 n)) 2000 1000); [|lia].
  vm_compute. reflexivity.
Qed.

Lemma civil_from_days_bounds z :
  -106752 <= z <= 106752 ->
  1677 <= year (civil_from_days z) <= 2262 /\
  1 <= month (civil_from_days z) <= 12 /\
  1 <= day (civil_from_days z) <= 31.
Proof.
  intros Hz. unfold civil_from_days. cbn [year month day].
  Z.div_mod_to_equations.
  destruct (_ <? 10) eqn:E1; destruct (_ <=? 2) eqn:E2; lia.
Qed.

Lemma iso_shape a b c :
  is_digits 4 a = true -> is_digits 2 b = true -> is_digits 2 c = true ->
  is_iso_date (a +:+ "-" +:+ b +:+ "-" +:+ c) = true.
Proof.
  unfold is_digits. intros Ha Hb Hc.
  apply andb_prop in Ha as [La Da], Hb as [Lb Db], Hc as [Lc Dc].
  destruct a as [|a1 [|a2 [|a3 [|a4 [|]]]]]; try discriminate La.
  destruct b as [|b1 [|b2 [|]]]; try discriminate Lb.
  destruct c as [|c1 [|c2 [|]]]; try discriminate Lc.
  cbn [list_of_string forallb] in Da, Db, Dc.
  unfold is_iso_date. cbv [String.append list_of_string].
  repeat match goal with H : _ && _ = true |- _ => apply andb_prop in H as [? ?] end.
  repeat match goal with H : is_digit _ = true |- _ => rewrite H; clear H end.
  reflexivity.
Qed.

Lemma strftime_instant_shape t :
  -9223372036 <= t <= 9223372036 -> is_iso_date (strftime_instant t) = true.
Proof.
  intros Ht. unfold strftime_instant, strftime.
  assert (Hd : -106752 <= t / 86400 <= 106752).
  { split; [apply Z.div_le_lower_bound|apply Z.div_le_upper_bound]; lia. }
  destruct (civil_from_days_bounds _ Hd) as (Hy & Hm & Hday).
  apply iso_shape; [apply zero_pad_4|apply zero_pad_2|apply zero_pad_2]; lia.
Qed.

Lemma to_datetime_Some t : -9223372036 <= t <= 9223372036 -> to_datetime t = Some t.
Proof.
  intros [H1 H2]. unfold to_datetime.
  apply Z.leb_le in H1, H2. now rewrite H1, H2.
Qed.

Lemma dates_Ok daily :
  -9223372036 <= Time daily <= 9223372036 ->
  -9223372036 <= TimeEnd daily <= 9223372036 ->
  dates daily =
    Ok (map strftime_instant (date_range (Time daily) (TimeEnd daily) (Interval daily))).
Proof.
  intros H1 H2. unfold dates, pd_to_datetime.
  now rewrite (to_datetime_Some _ H1), (to_datetime_Some _ H2).
Qed.

Lemma daily_data_Ok daily c0 c1 c2 c3 c4 c5 more :
  Variables daily = c0 :: c1 :: c2 :: c3 :: c4 :: c5 :: more ->
  -9223372036 <= Time daily <= 9223372036 ->
  -9223372036 <= TimeEnd daily <= 9223372036 ->
  daily_data daily =
    Ok (PDict (("date", PList (map PStr (map strftime_instant
                  (date_range (Time daily) (TimeEnd daily) (Interval daily))))) ::
               ("temperature_2m_max", float_list c0) ::
               ("temperature_2m_min", float_list c1) ::
               ("temperature_2m_mean", float_list c2) ::
               ("apparent_temperature_max", float_list c3) ::
               ("apparent_temperature_min", float_list c4) ::
               ("apparent_temperature_mean", float_list c5) :: nil)).
Proof.
  intros Hv H1 H2. unfold daily_data. rewrite (dates_Ok _ H1 H2).
  unfold values. rewrite Hv. reflexivity.
Qed.



(** C1, amended. The lengths of the columns are never compared with the
    number of dates: for a validated request, an upstream block with six
    columns of any lengths and representable instants, and a bucket that
    accepts the upload, the handler answers 200 and stores the dates and the
    columns as they came. *)
Theorem column_lengths_are_not_compared env req w v r0 rest c0 c1 c2 c3 c4 c5 more :
  validate req = Ok (inr v) ->
  weather_api env url (params v) = Ok (r0 :: rest) ->
  Variables (Daily r0) = c0 :: c1 :: c2 :: c3 :: c4 :: c5 :: more ->
  -9223372036 <= Time (Daily r0) <= 9223372036 ->
  -9223372036 <= TimeEnd (Daily r0) <= 9223372036 ->
  (forall name content, gcs_fault env (UploadFromString name content) = None) ->
  let date := map strftime_instant
                (date_range (Time (Daily r0)) (TimeEnd (Daily r0)) (Interval (Daily r0))) in
  let record :=
    PDict (("latitude", PFloat (Latitude r0)) :: ("longitude", PFloat (Longitude r0)) ::
           ("start_date", start_date_string v) :: ("end_date", end_date_string v) ::
           ("daily_data",
            PDict (("date", PList (map PStr date)) ::
                   ("temperature_2m_max", PList (map PFloat c0)) ::
                   ("temperature_2m_min", PList (map PFloat c1)) ::
                   ("temperature_2m_mean", PList (map PFloat c2)) ::
                   ("apparent_temperature_max", PList (map PFloat c3)) ::
                   ("apparent_temperature_min", PList (map PFloat c4)) ::
                   ("apparent_temperature_mean", PList (map PFloat c5)) :: nil)) :: nil) in
  let name := file_name (latitude v) (longitude v)
                        (start_date_string v) (end_date_string v) in
  status (fst (store_weather_data env req w)) = 200 /\
  bucket (snd (store_weather_data env req w)) = <[name := json_dumps record]> (bucket w).
Proof.
  intros Hv Hapi Hcols H1 H2 Hup date record name.
  rewrite (store_valid env _ w _ Hv).
  pose proof (daily_data_Ok _ _ _ _ _ _ _ _ Hcols H1 H2) as Hdd.
  destruct (fetch_and_store_outcome env v w)
    as [e He|He|r0' rest' e He Hdd'|r0' rest' dd e He Hdd' name' content Hf
        |r0' rest' dd He Hdd' name' content Hf].
  - congruence.
  - congruence.
  - congruence.
  - rewrite Hup in Hf. discriminate.
  - rewrite Hapi in He. injection He as <- <-.
    rewrite Hdd in Hdd'. injection Hdd' as <-.
    cbn [fst snd status bucket]. split; reflexivity.
Qed.

Lemma column_lengths_are_not_compared_witness :
  let date := map strftime_instant (date_range 1672531200 1672704000 86400) in
  let record :=
    PDict (("latitude", PFloat 52.54833) :: ("longitude", PFloat 13.407822) ::
           ("start_date", PStr "2023-01-01") :: ("end_date", PStr "2023-01-03") ::
           ("daily_data",
            PDict (("date", PList (map PStr date)) ::
                   ("temperature_2m_max", PList (map PFloat (1.5 :: nil)%float)) ::
                   ("temperature_2m_min", PList (map PFloat (0.5 :: 1.5 :: nil)%float)) ::
                   ("temperature_2m_mean", PList (map PFloat (1 :: 2 :: nil)%float)) ::
                   ("apparent_temperature_max", PList (map PFloat (1.5 :: 2.5 :: nil)%float)) ::
                   ("apparent_temperature_min", PList (map PFloat (0.5 :: 1.5 :: nil)%float)) ::
                   ("apparent_temperature_mean", PList (map PFloat (1 :: 2 :: nil)%float)) :: nil))
           :: nil) in
  let name := file_name 52.52 13.405 (PStr "2023-01-01") (PStr "2023-01-03") in
  let req := mkRequest (Ok (body_berlin "2023-01-01" "2023-01-03")) in
  status (fst (store_weather_data env_ragged req world0)) = 200 /\
  bucket (snd (store_weather_data env_ragged req world0)) =
    <[name := json_dumps record]> (bucket world0).
Proof.
  apply (column_lengths_are_not_compared env_ragged
           (mkRequest (Ok (body_berlin "2023-01-01" "2023-01-03"))) world0
           (mkValidated 52.52 13.405 (PStr "2023-01-01") (PStr "2023-01-03")
                        (mkdate 2023 1 1) (mkdate 2023 1 3))
           (mkResponse 52.54833%float 13.407822%float
              (mkDaily 1672531200 1672704000 86400
                 ((1.5 :: nil) :: (0.5 :: 1.5 :: nil) :: (1 :: 2 :: nil) ::
                  (1.5 :: 2.5 :: nil) :: (0.5 :: 1.5 :: nil) :: (1 :: 2 :: nil) :: nil)%float))
           nil _ _ _ _ _ _ nil);
    try reflexivity; cbn; lia.
Defined.

(** C1, the counterexample. An upstream block with two dates and a first
    column of one value is stored as it is, with status 200. *)
Lemma ragged_columns_are_stored :
  let run := store_weather_data env_ragged
               (mkRequest (Ok (body_berlin "2023-01-01" "2023-01-03"))) world0 in
  dates (mkDaily 1672531200 1672704000 86400 nil) =
    Ok ("2023-01-01"%string :: "2023-01-02"%string :: nil) /\
  status (fst run) = 200 /\
  bucket (snd run) !! "weather_data_52.52_13.405_2023-01-01_to_2023-01-03.json"%string =
    Some (json_dumps
      (PDict (("latitude", PFloat 52.54833) :: ("longitude", PFloat 13.407822) ::
              ("start_date", PStr "2023-01-01") :: ("end_date", PStr "2023-01-03") ::
              ("daily_data",
               PDict (("date", PList (PStr "2023-01-01" :: PStr "2023-01-02" :: nil)) ::
                      ("temperature_2m_max", PList (PFloat 1.5 :: nil)) ::
                      ("temperature_2m_min", PList (PFloat 0.5 :: PFloat 1.5 :: nil)) ::
                      ("temperature_2m_mean", PList (PFloat 1 :: PFloat 2 :: nil)) ::
                      ("apparent_temperature_max", PList (PFloat 1.5 :: PFloat 2.5 :: nil)) ::
                      ("apparent_temperature_min", PList (PFloat 0.5 :: PFloat 1.5 :: nil)) ::
                      ("apparent_temperature_mean", PList (PFloat 1 :: PFloat 2 :: nil)) :: nil))
              :: nil))).
Proof. repeat split; vm_compute; reflexivity. Qed.



(** ** [repr] of a float determines the float *)

Lemma dval_snoc ds d : dval (ds ++ d :: nil) = 10 * dval ds + d.
Proof. unfold dval. now rewrite fold_left_app. Qed.

Lemma dval_rev_cons d acc : dval (rev (d :: acc)) = 10 * dval (rev acc) + d.
Proof. cbn [rev]. apply dval_snoc. Qed.

Lemma bounded_by_weaken closed x y : x < y -> bounded_by closed x y.
Proof. destruct closed; cbn; lia. Qed.

Lemma bounded_by_closed x y : x <= y -> bounded_by true x y.
Proof. cbn. lia. Qed.

Lemma is_Lt_compare x y : is_Lt (x ?= y) = (x <? y).
Proof. unfold Z.ltb. destruct (x ?= y); reflexivity. Qed.

Lemma is_Eq_compare x y : is_Eq (x ?= y) = (x =? y).
Proof.
  destruct (Z.compare_spec x y) as [H|H|H]; cbn [is_Eq]; symmetry;
    [apply Z.eqb_eq|apply Z.eqb_neq|apply Z.eqb_neq]; lia.
Qed.

Lemma is_Gt_compare x y : is_Gt (x ?= y) = (y <? x).
Proof. rewrite Z.ltb_antisym, Z.leb_compare. destruct (x ?= y); reflexivity. Qed.

(** One turn of the digit loop, with the three-way comparisons of the C code
    read as tests on integers. *)
Lemma dtoa_loop_step fuel even s b mlo mhi acc :
  0 < s ->
  dtoa_loop (S fuel) even s b mlo mhi acc =
    let dig := b / s in
    let r := b mod s in
    if (r + mhi =? s) && even then
      if dig =? 9 then (9 :: acc, true)
      else ((if mlo <? r then dig + 1 else dig) :: acc, false)
    else if (r <? mlo) || ((r =? mlo) && even) then
      if r =? 0 then (dig :: acc, false)
      else if s <? r + mhi then
        if (s <? 2 * r) || ((2 * r =? s) && Z.odd dig) then
          if dig =? 9 then (9 :: acc, true) else ((dig + 1) :: acc, false)
        else (dig :: acc, false)
      else (dig :: acc, false)
    else if s <? r + mhi then
      if dig =? 9 then (9 :: acc, true) else ((dig + 1) :: acc, false)
    else dtoa_loop fuel even s (10 * r) (10 * mlo) (10 * mhi) (dig :: acc).
Proof.
  intros Hs. cbn [dtoa_loop]. cbv zeta.
  pose proof (Z.mod_pos_bound b s Hs) as Hr.
  rewrite !is_Lt_compare, !is_Eq_compare, !is_Gt_compare.
  assert (E1 : is_Eq (if s - mhi <? 0 then Gt else b mod s ?= s - mhi)
               = (b mod s + mhi =? s)).
  { destruct (Z.ltb_spec (s - mhi) 0); cbn [is_Eq].
    - symmetry. apply Z.eqb_neq. lia.
    - rewrite is_Eq_compare. destruct (Z.eqb_spec (b mod s) (s - mhi));
        symmetry; [apply Z.eqb_eq|apply Z.eqb_neq]; lia. }
  assert (E2 : is_Gt (if s - mhi <? 0 then Gt else b mod s ?= s - mhi)
               = (s <? b mod s + mhi)).
  { destruct (Z.ltb_spec (s - mhi) 0); cbn [is_Gt].
    - symmetry. apply Z.ltb_lt. lia.
    - rewrite is_Gt_compare. destruct (Z.ltb_spec (s - mhi) (b mod s));
        symmetry; [apply Z.ltb_lt|apply Z.ltb_ge]; lia. }
  rewrite E1, E2. reflexivity.
Qed.

Ltac bool_arith :=
  repeat match goal with
    | H : _ && _ = true |- _ => apply andb_prop in H as [? ?]
    | H : _ && _ = false |- _ => apply andb_false_iff in H as [?|?]
    | H : _ || _ = true |- _ => apply orb_prop in H as [?|?]
    | H : _ || _ = false |- _ => apply orb_false_iff in H as [? ?]
    | H : (_ =? _) = true |- _ => apply Z.eqb_eq in H
    | H : (_ =? _) = false |- _ => apply Z.eqb_neq in H
    | H : (_ <? _) = true |- _ => apply Z.ltb_lt in H
    | H : (_ <? _) = false |- _ => apply Z.ltb_ge in H
    | H : true = false |- _ => discriminate H
    | H : false = true |- _ => discriminate H
    end.

Lemma pow10_S n : 10 ^ Z.of_nat (S n) = 10 * 10 ^ Z.of_nat n.
Proof. rewrite Nat2Z.inj_succ, Z.pow_succ_r by lia. reflexivity. Qed.

Lemma pow10_pos n : 0 < 10 ^ Z.of_nat n.
Proof. apply Z.pow_pos_nonneg; lia. Qed.

Lemma dtoa_loop_sound f : forall even s b mlo mhi acc acc' up,
  0 < s -> 0 <= b < 10 * s -> 0 < mlo -> 0 < mhi ->
  s < mlo * 10 ^ Z.of_nat f ->
  Forall digit_ok acc ->
  dtoa_loop (S f) even s b mlo mhi acc = (acc', up) ->
  exists n : nat,
    length acc' = (length acc + S n)%nat /\
    Forall digit_ok acc' /\
    let D := dval (rev acc') + (if up then 1 else 0) in
    let A := dval (rev acc) * 10 ^ Z.of_nat (S n) * s + b * 10 ^ Z.of_nat n in
    bounded_by even (A - D * s) (mlo * 10 ^ Z.of_nat n) /\
    bounded_by even (D * s - A) (mhi * 10 ^ Z.of_nat n).
Proof.
  induction f as [|f IH]; intros even s b mlo mhi acc acc' up Hs Hb Hlo Hhi Hfuel Hacc Hrun.
  all: rewrite dtoa_loop_step in Hrun by exact Hs; cbv zeta in Hrun.
  all: pose proof (Z.div_mod b s ltac:(lia)) as Hdm.
  all: pose proof (Z.mod_pos_bound b s Hs) as Hr.
  all: assert (Hdig : 0 <= b / s <= 9)
         by (split; [apply Z.div_pos; lia
                    | assert (b / s < 10) by (apply Z.div_lt_upper_bound; lia); lia]).
  all: set (dig := b / s) in *; set (r := b mod s) in *.
  all: assert (Hexit : forall F u,
         (F :: acc, u) = (acc', up) ->
         digit_ok F ->
         bounded_by even (b - (F + (if u then 1 else 0)) * s) mlo ->
         bounded_by even ((F + (if u then 1 else 0)) * s - b) mhi ->
         exists n : nat,
           length acc' = (length acc + S n)%nat /\
           Forall digit_ok acc' /\
           let D := dval (rev acc') + (if up then 1 else 0) in
           let A := dval (rev acc) * 10 ^ Z.of_nat (S n) * s + b * 10 ^ Z.of_nat n in
           bounded_by even (A - D * s) (mlo * 10 ^ Z.of_nat n) /\
           bounded_by even (D * s - A) (mhi * 10 ^ Z.of_nat n)).
  1,3: intros F u [= <- <-] HF H1 H2; exists 0%nat;
       (split; [cbn; lia|]); (split; [now constructor|]);
       cbv zeta; rewrite dval_rev_cons;
       change (Z.of_nat 1) with 1; change (Z.of_nat 0) with 0;
       rewrite Z.pow_1_r, Z.pow_0_r, !Z.mul_1_r;
       replace (dval (rev acc) * 10 * s + b - (10 * dval (rev acc) + F + (if u then 1 else 0)) * s)
         with (b - (F + (if u then 1 else 0)) * s) by ring;
       replace ((10 * dval (rev acc) + F + (if u then 1 else 0)) * s - (dval (rev acc) * 10 * s + b))
         with ((F + (if u then 1 else 0)) * s - b) by ring;
       split; assumption.
  all: revert Hrun.
  all: repeat match goal with
         | |- (if ?c then _ else _) = _ -> _ => destruct c eqn:?
         | |- (?h :: _, _) = _ -> _ =>
             match h with
             | context [if ?c then _ else _] => destruct c eqn:?
             end
         end.
  all: bool_arith.
  all: try (intros Hrun; apply Hexit in Hrun;
            [exact Hrun | unfold digit_ok; lia
            | destruct even; cbn; try discriminate; nia
            | destruct even; cbn; try discriminate; nia]).
  all: intros Hrun.
  all: apply IH in Hrun; [|lia|lia|lia|lia|rewrite pow10_S in Hfuel; lia
                          |constructor; [unfold digit_ok; lia|exact Hacc]].
  all: destruct Hrun as (n & Hlen & Hok & HD).
  all: exists (S n); split; [cbn [length] in Hlen; lia|]; split; [exact Hok|].
  all: cbv zeta in HD |- *; rewrite dval_rev_cons in HD.
  all: rewrite !(pow10_S (S n)), !(pow10_S n) in *.
  all: replace (dval (rev acc) * (10 * (10 * 10 ^ Z.of_nat n)) * s + b * (10 * 10 ^ Z.of_nat n))
         with ((10 * dval (rev acc) + dig) * (10 * 10 ^ Z.of_nat n) * s +
               10 * r * 10 ^ Z.of_nat n) by (clearbody dig r; rewrite Hdm; ring).
  all: replace (mlo * (10 * 10 ^ Z.of_nat n)) with (10 * mlo * 10 ^ Z.of_nat n) by ring.
  all: replace (mhi * (10 * 10 ^ Z.of_nat n)) with (10 * mhi * 10 ^ Z.of_nat n) by ring.
  all: exact HD.
Qed.

Lemma roundoff_sound acc :
  Forall digit_ok acc ->
  forall acc2 over, roundoff acc = (acc2, over) ->
  Forall digit_ok acc2 /\ acc2 <> nil /\
  exists j : nat,
    (length acc + (if over then 1 else 0) = length acc2 + j)%nat /\
    dval (rev acc) + 1 = dval (rev acc2) * 10 ^ Z.of_nat j.
Proof.
  induction acc as [|d rest IH]; intros Hok acc2 over Hr; cbn [roundoff] in Hr.
  - injection Hr as <- <-. split; [|split; [discriminate|]].
    + repeat constructor; unfold digit_ok; lia.
    + exists 0%nat. split; reflexivity.
  - inversion Hok as [|? ? Hd Hrest]; subst.
    destruct (Z.eqb_spec d 9) as [->|Hne].
    + destruct (IH Hrest _ _ Hr) as (Hok2 & Hnil & j & Hlen & Hval).
      split; [exact Hok2|]. split; [exact Hnil|].
      exists (S j). split; [cbn [length]; lia|].
      rewrite dval_rev_cons, pow10_S. lia.
    + injection Hr as <- <-. split; [|split; [discriminate|]].
      * constructor; [unfold digit_ok in *; lia|exact Hrest].
      * exists 0%nat. split; [cbn [length]; lia|].
        rewrite !dval_rev_cons. cbn. lia.
Qed.

Lemma pow10_ge_pow2 n : 2 ^ Z.of_nat n <= 10 ^ Z.of_nat n.
Proof. apply Z.pow_le_mono_l. lia. Qed.

(** The fuel computed by [dtoa_fuel] is enough. *)
Lemma dtoa_fuel_enough n :
  0 < n -> exists f, dtoa_fuel n = S f /\ n < 10 ^ Z.of_nat f.
Proof.
  intros Hn. unfold dtoa_fuel. exists (Z.to_nat (Z.log2 n) + 1)%nat.
  split; [lia|].
  pose proof (Z.log2_nonneg n) as Hl.
  destruct (Z.log2_spec n Hn) as [_ Hlt].
  eapply Z.lt_le_trans; [exact Hlt|].
  replace (Z.succ (Z.log2 n)) with (Z.of_nat (Z.to_nat (Z.log2 n) + 1)) by lia.
  apply pow10_ge_pow2.
Qed.

Lemma dtoa_grow_sound fuel : forall b s k s' k',
  0 < s -> s <= b -> b < s * 10 ^ Z.of_nat fuel ->
  dtoa_grow fuel b s k = (s', k') ->
  exists j : nat, s' = s * 10 ^ Z.of_nat j /\ k' = k + Z.of_nat j /\ s' <= b < 10 * s'.
Proof.
  induction fuel as [|fuel IH]; intros b s k s' k' Hs Hle Hlt Hrun.
  - cbn in Hlt. lia.
  - cbn [dtoa_grow] in Hrun. rewrite pow10_S in Hlt.
    destruct (Z.leb_spec (10 * s) b) as [Hge|Hlt'].
    + apply IH in Hrun; [|lia|lia|lia].
      destruct Hrun as (j & -> & -> & Hb). exists (S j). rewrite pow10_S.
      split; [ring|]. split; [lia|]. exact Hb.
    + injection Hrun as <- <-. exists 0%nat. cbn. lia.
Qed.

Lemma dtoa_shrink_sound fuel : forall b mlo mhi s k b' mlo' mhi' k',
  0 < b -> s <= b * 10 ^ Z.of_nat fuel ->
  dtoa_shrink fuel b mlo mhi s k = (b', mlo', mhi', k') ->
  exists j : nat,
    b' = b * 10 ^ Z.of_nat j /\ mlo' = mlo * 10 ^ Z.of_nat j /\
    mhi' = mhi * 10 ^ Z.of_nat j /\ k' = k - Z.of_nat j /\
    s <= b' /\ (j = 0%nat \/ b' < 10 * s).
Proof.
  induction fuel as [|fuel IH]; intros b mlo mhi s k b' mlo' mhi' k' Hb Hle Hrun.
  - cbn in Hle. cbn [dtoa_shrink] in Hrun. injection Hrun as <- <- <- <-.
    exists 0%nat. cbn. lia.
  - cbn [dtoa_shrink] in Hrun. rewrite pow10_S in Hle.
    destruct (Z.ltb_spec b s) as [Hlt|Hge].
    + apply IH in Hrun; [|lia|lia].
      destruct Hrun as (j & -> & -> & -> & -> & Hs & Hj).
      exists (S j). rewrite pow10_S.
      repeat split; try ring; try lia.
      right. destruct Hj as [->|Hj]; [cbn; lia|lia].
    + injection Hrun as <- <- <- <-. exists 0%nat. cbn. lia.
Qed.

Lemma bounded_by_eq closed x y x' y' :
  x = x' -> y = y' -> bounded_by closed x y -> bounded_by closed x' y'.
Proof. now intros -> ->. Qed.

Lemma dtoa_sound_Z m e b0 s0 mlo0 mhi0 ds decpt :
  dtoa_scale m e = (b0, s0, mlo0, mhi0) ->
  0 < b0 -> 0 < s0 -> 0 < mlo0 -> 0 < mhi0 ->
  dtoa m e = (ds, decpt) ->
  Forall digit_ok ds /\ ds <> nil /\
  exists a c n j : nat,
    decpt - Z.of_nat (length ds) + Z.of_nat n + Z.of_nat a = Z.of_nat c + Z.of_nat j /\
    let D := dval ds * 10 ^ Z.of_nat j in
    let P := 10 ^ Z.of_nat (a + n) in
    bounded_by (Z.even (Zpos m)) (b0 * P - D * (s0 * 10 ^ Z.of_nat c)) (mlo0 * P) /\
    bounded_by (Z.even (Zpos m)) (D * (s0 * 10 ^ Z.of_nat c) - b0 * P) (mhi0 * P).
Proof.
  intros Hscale Hb0 Hs0 Hlo0 Hhi0 Hrun. unfold dtoa in Hrun. rewrite Hscale in Hrun.
  assert (Hscaled : exists (a c : nat) b s mlo mhi k,
            (if b0 <? s0
             then let '(b', mlo', mhi', k) := dtoa_shrink (dtoa_fuel s0) b0 mlo0 mhi0 s0 0 in
                  (b', s0, mlo', mhi', k)
             else let '(s', k) := dtoa_grow (dtoa_fuel b0) b0 s0 0 in
                  (b0, s', mlo0, mhi0, k)) = (b, s, mlo, mhi, k) /\
            b = b0 * 10 ^ Z.of_nat a /\ s = s0 * 10 ^ Z.of_nat c /\
            mlo = mlo0 * 10 ^ Z.of_nat a /\ mhi = mhi0 * 10 ^ Z.of_nat a /\
            k + Z.of_nat a = Z.of_nat c /\ s <= b < 10 * s).
  { destruct (Z.ltb_spec b0 s0) as [Hlt|Hge].
    - destruct (dtoa_shrink (dtoa_fuel s0) b0 mlo0 mhi0 s0 0) as [[[b' mlo'] mhi'] k] eqn:Hsh.
      destruct (dtoa_fuel_enough s0 Hs0) as (f & Hf & Hpow). rewrite Hf in Hsh.
      apply dtoa_shrink_sound in Hsh; [|lia|rewrite pow10_S; nia].
      destruct Hsh as (a & -> & -> & -> & -> & Hs & Ha).
      exists a, 0%nat, (b0 * 10 ^ Z.of_nat a), s0, (mlo0 * 10 ^ Z.of_nat a),
        (mhi0 * 10 ^ Z.of_nat a), (0 - Z.of_nat a).
      repeat split; try reflexivity; try lia; try (cbn; lia).
      destruct Ha as [->|Ha]; [cbn in Hs; lia|exact Ha].
    - destruct (dtoa_grow (dtoa_fuel b0) b0 s0 0) as [s' k] eqn:Hgr.
      destruct (dtoa_fuel_enough b0 Hb0) as (f & Hf & Hpow). rewrite Hf in Hgr.
      apply dtoa_grow_sound in Hgr; [|lia|lia|rewrite pow10_S; nia].
      destruct Hgr as (c & -> & -> & Hb).
      exists 0%nat, c, b0, (s0 * 10 ^ Z.of_nat c), mlo0, mhi0, (0 + Z.of_nat c).
      repeat split; try reflexivity; try (cbn; lia); lia. }
  destruct Hscaled as (a & c & b & s & mlo & mhi & k & Heq & Hb & Hs & Hlo & Hhi & Hk & Hbs).
  rewrite Heq in Hrun. clear Heq.
  pose proof (pow10_pos a) as Hpa. pose proof (pow10_pos c) as Hpc.
  assert (Hspos : 0 < s) by nia.
  assert (Hlopos : 0 < mlo) by nia.
  assert (Hhipos : 0 < mhi) by nia.
  destruct (dtoa_loop (dtoa_fuel s) (Z.even (Z.pos m)) s b mlo mhi nil) as [acc up] eqn:Hloop.
  destruct (dtoa_fuel_enough s Hspos) as (f & Hf & Hpow). rewrite Hf in Hloop.
  apply dtoa_loop_sound in Hloop; [|lia|lia|lia|lia|nia|constructor].
  destruct Hloop as (n & Hlen & Hok & HD). cbn [length rev dval fold_left] in Hlen, HD.
  cbv zeta in HD.
  destruct HD as [HD1 HD2].
  destruct up.
  - destruct (roundoff acc) as [acc2 over] eqn:Hro.
    destruct (roundoff_sound acc Hok _ _ Hro) as (Hok2 & Hnil & j & Hlen2 & Hval).
    injection Hrun as <- <-.
    split; [apply Forall_rev; exact Hok2|].
    split; [intros Hc; apply (f_equal (@rev Z)) in Hc; rewrite rev_involutive in Hc;
            now apply Hnil|].
    exists a, c, n, j. rewrite length_rev.
    split; [destruct over; lia|].
    cbv zeta. rewrite <- Hval, Nat2Z.inj_add, Z.pow_add_r by lia. subst b s mlo mhi.
    split; [refine (bounded_by_eq _ _ _ _ _ _ _ HD1); ring
           |refine (bounded_by_eq _ _ _ _ _ _ _ HD2); ring].
  - injection Hrun as <- <-.
    split; [apply Forall_rev; exact Hok|].
    split; [intros Hc; apply (f_equal (@length Z)) in Hc; rewrite length_rev in Hc;
            cbn in Hc; lia|].
    exists a, c, n, 0%nat. rewrite length_rev.
    split; [lia|].
    cbv zeta. rewrite Nat2Z.inj_add, Z.pow_add_r by lia. subst b s mlo mhi.
    change (10 ^ Z.of_nat 0) with 1.
    split; [refine (bounded_by_eq _ _ _ _ _ _ _ HD1); ring
           |refine (bounded_by_eq _ _ _ _ _ _ _ HD2); ring].
Qed.

Lemma IZR_pow z e : 0 <= e -> IZR (z ^ e) = powerRZ (IZR z) e.
Proof.
  intros He. rewrite <- (Z2Nat.id e He), <- pow_IZR. apply pow_powerRZ.
Qed.

Lemma powerRZ_2_pos e : (0 < powerRZ 2 e)%R.
Proof. apply powerRZ_lt. lra. Qed.

Lemma powerRZ_10_pos e : (0 < powerRZ 10 e)%R.
Proof. apply powerRZ_lt. lra. Qed.

Lemma powerRZ_2_add a b : (powerRZ 2 a * powerRZ 2 b)%R = powerRZ 2 (a + b).
Proof. symmetry. apply powerRZ_add. lra. Qed.

Lemma powerRZ_10_add a b : (powerRZ 10 a * powerRZ 10 b)%R = powerRZ 10 (a + b).
Proof. symmetry. apply powerRZ_add. lra. Qed.

Lemma bounded_by_IZR closed x y : bounded_by closed x y -> bounded_byR closed (IZR x) (IZR y).
Proof. destruct closed; cbn; [apply IZR_le|apply IZR_lt]. Qed.

Lemma bounded_byR_cancel closed x y k :
  (0 < k)%R -> bounded_byR closed (x * k) (y * k) -> bounded_byR closed x y.
Proof.
  intros Hk. destruct closed; cbn; intros H.
  - now apply Rmult_le_reg_r in H.
  - now apply Rmult_lt_reg_r in H.
Qed.

(** What [dtoa_scale] returns, read in the reals. *)
Lemma dtoa_scale_sound m e b0 s0 mlo0 mhi0 :
  dtoa_scale m e = (b0, s0, mlo0, mhi0) ->
  0 < b0 /\ 0 < s0 /\ 0 < mlo0 /\ 0 < mhi0 /\
  IZR b0 = (binary (Zpos m) e * IZR s0)%R /\
  IZR mlo0 = (gap_below m e * IZR s0)%R /\
  IZR mhi0 = (gap_above e * IZR s0)%R.
Proof.
  unfold dtoa_scale, binary, gap_below, gap_above.
  set (sh := if dtoa_spec_case m e then 2 else 1).
  assert (Hsh : sh = 1 \/ sh = 2)
    by (unfold sh; destruct (dtoa_spec_case m e); auto).
  clearbody sh.
  assert (Hhi : IZR sh = powerRZ 2 (sh - 1))
    by (destruct Hsh as [->| ->]; simpl; lra).
  destruct (Z.leb_spec sh e) as [Hle|Hgt]; intros [= <- <- <- <-].
  - assert (0 < 2 ^ e) by (apply Z.pow_pos_nonneg; lia).
    assert (0 < 2 ^ (e - sh)) by (apply Z.pow_pos_nonneg; lia).
    repeat split; try lia.
    + rewrite mult_IZR, IZR_pow by lia. lra.
    + rewrite IZR_pow by lia. lra.
    + rewrite mult_IZR, IZR_pow, Hhi, powerRZ_2_add by lia.
      rewrite Rmult_1_r. f_equal. lia.
  - assert (0 < 2 ^ sh) by (apply Z.pow_pos_nonneg; lia).
    assert (0 < 2 ^ (sh - e)) by (apply Z.pow_pos_nonneg; lia).
    repeat split; try lia.
    + rewrite mult_IZR, !IZR_pow by lia.
      rewrite Rmult_assoc, powerRZ_2_add. do 2 f_equal. lia.
    + rewrite IZR_pow, powerRZ_2_add by lia.
      replace (e - sh + (sh - e)) with 0 by lia. reflexivity.
    + rewrite IZR_pow, powerRZ_2_add, Hhi by lia. f_equal. lia.
Qed.

(** The digits [_Py_dg_dtoa] produces denote a real of the rounding interval
    of the float. *)
Lemma dtoa_rounds_to m e ds decpt :
  dtoa m e = (ds, decpt) ->
  Forall digit_ok ds /\ ds <> nil /\
  rounds_to m e (decimal (dval ds) (decpt - Z.of_nat (length ds))).
Proof.
  intros Hrun.
  destruct (dtoa_scale m e) as [[[b0 s0] mlo0] mhi0] eqn:Hscale.
  destruct (dtoa_scale_sound _ _ _ _ _ _ Hscale)
    as (Hb0 & Hs0 & Hlo0 & Hhi0 & Eb & Elo & Ehi).
  destruct (dtoa_sound_Z _ _ _ _ _ _ _ _ Hscale Hb0 Hs0 Hlo0 Hhi0 Hrun)
    as (Hok & Hnil & a & c & n & j & Hexp & H1 & H2).
  split; [exact Hok|]. split; [exact Hnil|].
  unfold rounds_to.
  cbv zeta in H1, H2.
  apply bounded_by_IZR in H1, H2.
  rewrite minus_IZR, !mult_IZR, !IZR_pow in H1, H2 by lia.
  rewrite Eb, Elo in H1. rewrite Eb, Ehi in H2.
  set (x := binary (Z.pos m) e) in *.
  set (V := decimal (dval ds) (decpt - Z.of_nat (length ds))).
  assert (HV : (IZR (dval ds) * powerRZ 10 (Z.of_nat j) * powerRZ 10 (Z.of_nat c)
                = V * powerRZ 10 (Z.of_nat (a + n)))%R).
  { unfold V, decimal. rewrite !Rmult_assoc, !powerRZ_10_add. do 2 f_equal. lia. }
  assert (Hk : (0 < IZR s0 * powerRZ 10 (Z.of_nat (a + n)))%R).
  { apply Rmult_lt_0_compat; [now apply IZR_lt|apply powerRZ_10_pos]. }
  assert (HV' : (IZR (dval ds) * powerRZ 10 (Z.of_nat j) * (IZR s0 * powerRZ 10 (Z.of_nat c))
                 = V * (IZR s0 * powerRZ 10 (Z.of_nat (a + n))))%R).
  { replace (IZR (dval ds) * powerRZ 10 (Z.of_nat j) * (IZR s0 * powerRZ 10 (Z.of_nat c)))%R
      with (IZR s0 * (IZR (dval ds) * powerRZ 10 (Z.of_nat j) * powerRZ 10 (Z.of_nat c)))%R
      by ring.
    rewrite HV. ring. }
  rewrite HV' in H1, H2. clear HV HV'.
  set (K := (IZR s0 * powerRZ 10 (Z.of_nat (a + n)))%R) in *.
  change (IZR 10) with 10%R in H1, H2.
  set (P := powerRZ 10 (Z.of_nat (a + n))) in *.
  assert (HK : K = (IZR s0 * P)%R) by reflexivity.
  set (glo := gap_below m e) in *. set (ghi := gap_above e) in *.
  clearbody K P V x glo ghi.
  split; apply (bounded_byR_cancel _ _ _ K Hk);
    destruct (Z.even (Z.pos m)); cbn [bounded_byR] in *; subst K; nra.
Qed.

(** *** Distinct floats have disjoint rounding intervals *)
Lemma digits2_pos_spec m :
  2 ^ (Zpos (digits2_pos m) - 1) <= Zpos m < 2 ^ Zpos (digits2_pos m).
Proof.
  induction m as [p IH|p IH|]; cbn [digits2_pos].
  - rewrite Pos2Z.inj_succ.
    replace (Z.succ (Z.pos (digits2_pos p)) - 1) with (Z.succ (Z.pos (digits2_pos p) - 1)) by lia.
    rewrite !Z.pow_succ_r by lia. lia.
  - rewrite Pos2Z.inj_succ.
    replace (Z.succ (Z.pos (digits2_pos p)) - 1) with (Z.succ (Z.pos (digits2_pos p) - 1)) by lia.
    rewrite !Z.pow_succ_r by lia. lia.
  - cbn. lia.
Qed.

(** A valid binary64 mantissa and exponent. *)
Lemma bounded_spec m e :
  SpecFloat.bounded prec emax m e = true ->
  -1074 <= e <= 971 /\ Zpos m < 2 ^ 53 /\ (-1074 < e -> 2 ^ 52 <= Zpos m).
Proof.
  unfold SpecFloat.bounded, canonical_mantissa, fexp, SpecFloat.emin, prec, emax.
  intros H. apply andb_prop in H as [Hc He].
  apply Z.eqb_eq in Hc. apply Z.leb_le in He.
  pose proof (digits2_pos_spec m) as [Hlo Hhi].
  assert (Hd : Zpos (digits2_pos m) <= 53) by lia.
  split; [lia|]. split.
  - eapply Z.lt_le_trans; [exact Hhi|]. apply Z.pow_le_mono_r; lia.
  - intros Hn. assert (Zpos (digits2_pos m) = 53) as Hd53 by lia.
    rewrite Hd53 in Hlo. exact Hlo.
Qed.

Lemma rounds_to_quarters m e v :
  rounds_to m e v ->
  bounded_byR (Z.even (Zpos m)) (IZR (low_quarters m e) * powerRZ 2 (e - 2)) v /\
  bounded_byR (Z.even (Zpos m)) v (IZR (4 * Zpos m + 2) * powerRZ 2 (e - 2)).
Proof.
  unfold rounds_to, binary, gap_below, gap_above, low_quarters.
  assert (E0 : powerRZ 2 e = (4 * powerRZ 2 (e - 2))%R).
  { replace e with (2 + (e - 2)) at 1 by lia. rewrite <- powerRZ_2_add. simpl. lra. }
  assert (E1 : powerRZ 2 (e - 1) = (2 * powerRZ 2 (e - 2))%R).
  { replace (e - 1) with (1 + (e - 2)) by lia. rewrite <- powerRZ_2_add. simpl. lra. }
  intros [H1 H2].
  rewrite plus_IZR, minus_IZR, !mult_IZR.
  split.
  - destruct (dtoa_spec_case m e); rewrite ?E1, E0 in H1;
      destruct (Z.even (Z.pos m)); cbn [bounded_byR] in *; lra.
  - rewrite E1, E0 in H2. destruct (Z.even (Z.pos m)); cbn [bounded_byR] in *; lra.
Qed.

Lemma bounded_byR_trans c1 c2 x y z :
  bounded_byR c1 x y -> bounded_byR c2 y z -> bounded_byR (c1 && c2) x z.
Proof. destruct c1, c2; cbn; lra. Qed.

Lemma bounded_byR_Z closed x y :
  bounded_byR closed (IZR x) (IZR y) -> bounded_by closed x y.
Proof. destruct closed; cbn; [apply le_IZR|apply lt_IZR]. Qed.

(** Two overlapping rounding intervals, the second float having the larger
    or the same exponent: compared in quarters of the first unit. *)
Lemma overlap_quarters m e m' e' v :
  e <= e' -> rounds_to m e v -> rounds_to m' e' v ->
  let p := 2 ^ (e' - e) in
  let closed := Z.even (Zpos m) && Z.even (Zpos m') in
  bounded_by closed (low_quarters m' e' * p) (4 * Zpos m + 2) /\
  bounded_by closed (low_quarters m e) ((4 * Zpos m' + 2) * p).
Proof.
  intros Hle H H' p closed.
  apply rounds_to_quarters in H as [L U], H' as [L' U'].
  assert (Ep : powerRZ 2 (e' - 2) = (IZR p * powerRZ 2 (e - 2))%R).
  { unfold p. rewrite IZR_pow, powerRZ_2_add by lia. f_equal. lia. }
  rewrite Ep in L', U'.
  pose proof (powerRZ_2_pos (e - 2)) as Hu.
  split.
  - apply bounded_byR_Z. rewrite mult_IZR.
    apply (bounded_byR_cancel _ _ _ (powerRZ 2 (e - 2)) Hu).
    unfold closed. rewrite andb_comm.
    eapply bounded_byR_trans; [|exact U].
    now rewrite Rmult_assoc.
  - apply bounded_byR_Z. rewrite mult_IZR.
    apply (bounded_byR_cancel _ _ _ (powerRZ 2 (e - 2)) Hu).
    unfold closed.
    eapply bounded_byR_trans; [exact L|].
    now rewrite Rmult_assoc.
Qed.

Lemma even_cases n : (Z.even n = true /\ exists k, n = 2 * k) \/
                     (Z.even n = false /\ exists k, n = 2 * k + 1).
Proof.
  destruct (Z.even n) eqn:E.
  - left. split; [reflexivity|]. apply Z.even_spec in E. exact E.
  - right. split; [reflexivity|].
    rewrite <- Z.negb_odd in E. apply negb_false_iff, Z.odd_spec in E. exact E.
Qed.

Lemma low_quarters_cases m e :
  SpecFloat.bounded prec emax m e = true ->
  (low_quarters m e = 4 * Zpos m - 1 /\ Zpos m = 2 ^ 52 /\ -1074 < e) \/
  (low_quarters m e = 4 * Zpos m - 2 /\ (-1074 < e -> 2 ^ 52 < Zpos m)).
Proof.
  intros Hb. destruct (bounded_spec _ _ Hb) as (He & Hm & Hn).
  unfold low_quarters, dtoa_spec_case.
  destruct (Z.eqb_spec (Z.pos m) (2 ^ 52)) as [E|E];
    destruct (Z.ltb_spec (-1074) e) as [E'|E']; cbn [andb]; [left|right..]; lia.
Qed.

(** With the larger exponent on the second float, overlapping intervals
    force equal exponents and equal mantissas. *)
Lemma rounds_to_inj_le m e m' e' v :
  SpecFloat.bounded prec emax m e = true ->
  SpecFloat.bounded prec emax m' e' = true ->
  e <= e' -> rounds_to m e v -> rounds_to m' e' v ->
  m = m' /\ e = e'.
Proof.
  intros Hb Hb' Hle H H'.
  destruct (overlap_quarters _ _ _ _ _ Hle H H') as [L1 L2]. cbv zeta in L1, L2.
  destruct (bounded_spec _ _ Hb) as (He & Hm & Hn).
  destruct (bounded_spec _ _ Hb') as (He' & Hm' & Hn').
  pose proof (Pos2Z.is_pos m) as Hmp. pose proof (Pos2Z.is_pos m') as Hmp'.
  destruct (Z.eq_dec e e') as [<-|Hne].
  - rewrite Z.sub_diag in L1, L2. change (2 ^ 0) with 1 in L1, L2.
    rewrite Z.mul_1_r in L1, L2.
    split; [|reflexivity].
    apply Pos2Z.inj.
    destruct (low_quarters_cases _ _ Hb) as [(E1 & _)|(E1 & _)];
      destruct (low_quarters_cases _ _ Hb') as [(E1' & _)|(E1' & _)];
      destruct (even_cases (Z.pos m)) as [[Ev [k Hk]]|[Ev [k Hk]]];
      destruct (even_cases (Z.pos m')) as [[Ev' [k' Hk']]|[Ev' [k' Hk']]];
      rewrite E1 in L2; rewrite E1' in L1; rewrite Ev, Ev' in L1, L2;
      cbn [andb bounded_by] in L1, L2; lia.
  - exfalso.
    assert (Hp : 2 <= 2 ^ (e' - e)).
    { change 2 with (2 ^ 1) at 1. apply Z.pow_le_mono_r; lia. }
    set (p := 2 ^ (e' - e)) in *. clearbody p.
    specialize (Hn' ltac:(lia)).
    destruct (low_quarters_cases _ _ Hb') as [(E1 & E2 & _)|(E1 & E2)];
      rewrite E1 in L1; clear L2;
      destruct (even_cases (Z.pos m)) as [[Ev [k Hk]]|[Ev [k Hk]]];
      rewrite Ev in L1;
      destruct (Z.even (Z.pos m')); cbn [andb bounded_by] in L1;
      try specialize (E2 ltac:(lia)); nia.
Qed.

Theorem rounds_to_inj m e m' e' v :
  SpecFloat.bounded prec emax m e = true ->
  SpecFloat.bounded prec emax m' e' = true ->
  rounds_to m e v -> rounds_to m' e' v ->
  m = m' /\ e = e'.
Proof.
  intros Hb Hb' H H'. destruct (Z.le_ge_cases e e') as [Hle|Hge].
  - now apply (rounds_to_inj_le m e m' e' v).
  - destruct (rounds_to_inj_le m' e' m e v); auto.
Qed.

Lemma list_of_string_app a b :
  list_of_string (a +:+ b) = list_of_string a ++ list_of_string b.
Proof.
  induction a as [|c a IH]; [reflexivity|].
  change (list_of_string (String c (a +:+ b)) = (c :: list_of_string a) ++ list_of_string b).
  cbn [list_of_string app]. now rewrite IH.
Qed.

Lemma list_of_string_of_list l : list_of_string (string_of_list l) = l.
Proof. induction l as [|c l IH]; cbn; [reflexivity|now rewrite IH]. Qed.

Lemma string_of_list_of_string s : string_of_list (list_of_string s) = s.
Proof. induction s as [|c s IH]; cbn; [reflexivity|now rewrite IH]. Qed.

Lemma list_of_string_inj a b : list_of_string a = list_of_string b -> a = b.
Proof.
  intros H. rewrite <- (string_of_list_of_string a), <- (string_of_list_of_string b).
  now rewrite H.
Qed.

Lemma split_at_found c l1 l2 :
  Forall (fun a => a <> c) l1 -> split_at c (l1 ++ c :: l2) = (l1, Some l2).
Proof.
  induction 1 as [|a l1 Ha _ IH]; cbn [split_at app].
  - now rewrite Ascii.eqb_refl.
  - destruct (Ascii.eqb_spec a c) as [->|_]; [contradiction|]. now rewrite IH.
Qed.

Lemma split_at_absent c l :
  Forall (fun a => a <> c) l -> split_at c l = (l, None).
Proof.
  induction 1 as [|a l Ha _ IH]; cbn [split_at]; [reflexivity|].
  destruct (Ascii.eqb_spec a c) as [->|_]; [contradiction|]. now rewrite IH.
Qed.

Lemma code_chr n : 0 <= n < 256 -> code (chr n) = n.
Proof.
  intros Hn. unfold code, chr. rewrite N_ascii_embedding; lia.
Qed.

Lemma is_digit_digit_char d : digit_ok d -> is_digit (digit_char d) = true.
Proof.
  unfold digit_ok, is_digit, digit_char. intros Hd. rewrite code_chr by lia.
  apply andb_true_intro. split; apply Z.leb_le; lia.
Qed.

Lemma digit_val_digit_char d : digit_ok d -> digit_val (digit_char d) = d.
Proof.
  unfold digit_ok, digit_val, digit_char. intros Hd. rewrite code_chr by lia. lia.
Qed.

Lemma is_digit_not c (x : ascii) :
  is_digit c = true -> is_digit x = false -> c <> x.
Proof. intros Hc Hx ->. congruence. Qed.

Lemma digits_only_map ds : Forall digit_ok ds -> digits_only (map digit_char ds).
Proof.
  induction 1; cbn; constructor; auto using is_digit_digit_char.
Qed.

Lemma digits_only_zeros n : digits_only (repeat "0"%char n).
Proof. induction n; cbn; constructor; auto. Qed.

Lemma digits_only_app a b : digits_only a -> digits_only b -> digits_only (a ++ b).
Proof. apply Forall_app_2. Qed.

Lemma digits_only_not l (x : ascii) :
  is_digit x = false -> digits_only l -> Forall (fun a => a <> x) l.
Proof.
  intros Hx H. induction H as [|c l Hc _ IH]; constructor; [|exact IH].
  now apply is_digit_not.
Qed.

Lemma digits_value_fold l : forall acc,
  fold_left (fun acc c => 10 * acc + digit_val c) l acc =
  acc * 10 ^ Z.of_nat (length l) + digits_value l.
Proof.
  unfold digits_value. induction l as [|c l IH]; intros acc; cbn [fold_left length].
  - cbn. lia.
  - rewrite IH, (IH (10 * 0 + digit_val c)), pow10_S. ring.
Qed.

Lemma digits_value_app a b :
  digits_value (a ++ b) = digits_value a * 10 ^ Z.of_nat (length b) + digits_value b.
Proof.
  unfold digits_value at 1. rewrite fold_left_app, digits_value_fold. reflexivity.
Qed.

Lemma digits_value_cons c l :
  digits_value (c :: l) = digit_val c * 10 ^ Z.of_nat (length l) + digits_value l.
Proof. apply (digits_value_app (c :: nil) l). Qed.

Lemma digits_value_zeros n : digits_value (repeat "0"%char n) = 0.
Proof.
  induction n as [|n IH]; [reflexivity|].
  cbn [repeat]. rewrite digits_value_cons, IH. reflexivity.
Qed.

Lemma dval_fold ds : forall acc,
  fold_left (fun a d => 10 * a + d) ds acc = acc * 10 ^ Z.of_nat (length ds) + dval ds.
Proof.
  unfold dval. induction ds as [|d ds IH]; intros acc; cbn [fold_left length].
  - cbn. lia.
  - rewrite IH, (IH (10 * 0 + d)), pow10_S. ring.
Qed.

Lemma dval_cons d ds : dval (d :: ds) = d * 10 ^ Z.of_nat (length ds) + dval ds.
Proof. unfold dval at 1. cbn [fold_left]. rewrite dval_fold. ring. Qed.

Lemma dval_app a b : dval (a ++ b) = dval a * 10 ^ Z.of_nat (length b) + dval b.
Proof. unfold dval at 1. rewrite fold_left_app, dval_fold. reflexivity. Qed.

Lemma digits_value_map ds :
  Forall digit_ok ds -> digits_value (map digit_char ds) = dval ds.
Proof.
  induction 1 as [|d ds Hd _ IH]; [reflexivity|].
  cbn [map]. rewrite digits_value_cons, dval_cons, IH, length_map, digit_val_digit_char by auto.
  reflexivity.
Qed.

Lemma int_of_str_of_Z n :
  NilZero.int_of_string (str_of_Z n) = Some (Z.to_int n).
Proof.
  unfold str_of_Z. destruct n as [|p|p]; [reflexivity| |]; cbn [Z.to_int];
    apply NilZero.isi; intros [= H]; now apply (Unsigned.to_uint_nonnil p).
Qed.

Lemma exp_value_format ex :
  exp_value (Some (list_of_string (format_exponent ex))) = ex.
Proof.
  unfold format_exponent. rewrite !list_of_string_app.
  set (a := Z.abs ex).
  assert (Hv : match NilZero.int_of_string
                       ((if a <? 10 then "0" else "") +:+ str_of_Z a) with
               | Some i => Z.of_int i
               | None => 0
               end = a).
  { destruct (Z.ltb_spec a 10) as [Hlt|Hge].
    - assert (Ha : 0 <= a < 0 + Z.of_nat 10) by (unfold a; lia).
      revert Ha. clearbody a.
      intros Ha. apply Z.eqb_eq.
      apply (all_from_spec
               (fun a => match NilZero.int_of_string ("0" +:+ str_of_Z a) with
                         | Some i => Z.of_int i
                         | None => 0
                         end =? a) 10 0); [vm_compute; reflexivity|exact Ha].
    - change ("" +:+ str_of_Z a) with (str_of_Z a).
      rewrite int_of_str_of_Z. apply DecimalZ.of_to. }
  rewrite <- list_of_string_app.
  destruct (Z.ltb_spec ex 0) as [Hneg|Hpos];
    cbn [list_of_string app exp_value]; rewrite string_of_list_of_string, Hv.
  - change (code "-" =? 45) with true. cbn iota. unfold a. lia.
  - change (code "+" =? 45) with false. cbn iota. unfold a. lia.
Qed.

Lemma decode_positional ip fp :
  digits_only ip -> digits_only fp ->
  decode_numeral (ip ++ "."%char :: fp) = (digits_value (ip ++ fp), - Z.of_nat (length fp)).
Proof.
  intros Hip Hfp. unfold decode_numeral.
  rewrite split_at_absent.
  - rewrite split_at_found by (apply digits_only_not; [reflexivity|exact Hip]).
    reflexivity.
  - apply Forall_app_2; [apply digits_only_not; [reflexivity|exact Hip]|].
    constructor; [discriminate|apply digits_only_not; [reflexivity|exact Hfp]].
Qed.

Lemma decode_exponent ip fp ex :
  digits_only ip -> digits_only fp ->
  decode_numeral (ip ++ "."%char :: fp ++ "e"%char :: ex) =
    (digits_value (ip ++ fp), exp_value (Some ex) - Z.of_nat (length fp)).
Proof.
  intros Hip Hfp. unfold decode_numeral.
  replace (ip ++ "."%char :: fp ++ "e"%char :: ex)
    with ((ip ++ "."%char :: fp) ++ "e"%char :: ex)
    by (rewrite <- app_assoc; reflexivity).
  rewrite split_at_found.
  - rewrite split_at_found by (apply digits_only_not; [reflexivity|exact Hip]).
    reflexivity.
  - apply Forall_app_2; [apply digits_only_not; [reflexivity|exact Hip]|].
    constructor; [discriminate|apply digits_only_not; [reflexivity|exact Hfp]].
Qed.

Lemma decode_exponent_integer ip ex :
  digits_only ip ->
  decode_numeral (ip ++ "e"%char :: ex) = (digits_value ip, exp_value (Some ex)).
Proof.
  intros Hip. unfold decode_numeral.
  rewrite split_at_found by (apply digits_only_not; [reflexivity|exact Hip]).
  rewrite split_at_absent by (apply digits_only_not; [reflexivity|exact Hip]).
  rewrite app_nil_r. cbn [length]. f_equal. lia.
Qed.

Lemma decimal_shift D t (j : nat) :
  decimal (D * 10 ^ Z.of_nat j) t = decimal D (t + Z.of_nat j).
Proof.
  unfold decimal. rewrite mult_IZR, IZR_pow, <- powerRZ_10_add by lia. ring.
Qed.

Lemma list_of_digits_string ds : list_of_string (digits_string ds) = map digit_char ds.
Proof. apply list_of_string_of_list. Qed.

Lemma list_of_zeros n : list_of_string (zeros n) = repeat "0"%char (Z.to_nat n).
Proof. apply list_of_string_of_list. Qed.

Ltac solve_digits :=
  unfold digits_only in *;
  repeat first
    [ assumption
    | exact I
    | apply Forall_nil
    | apply Forall_app_2
    | apply digits_only_zeros
    | apply digits_only_map
    | apply Forall_take
    | apply Forall_drop
    | (constructor;
       [first [assumption | reflexivity | apply is_digit_digit_char; assumption]|]) ].

(** The numeral [format_float_short] lays out denotes the digits scaled by
    the position of the point. *)
Lemma numeral_value_format ds decpt :
  Forall digit_ok ds -> ds <> nil ->
  numeral_value (format_float_short ds decpt) =
    decimal (dval ds) (decpt - Z.of_nat (length ds)).
Proof.
  intros Hok Hnil. unfold numeral_value, format_float_short.
  pose proof (digits_only_map _ Hok) as Hdig.
  destruct ((decpt <=? -4) || (16 <? decpt)).
  - destruct ds as [|d rest]; [contradiction|].
    inversion Hok as [|? ? Hd Hrest]; subst.
    destruct rest as [|d2 rest].
    + change (list_of_string (String (digit_char d) ("e" +:+ format_exponent (decpt - 1))))
        with ((digit_char d :: nil) ++ "e"%char :: list_of_string (format_exponent (decpt - 1))).
      rewrite decode_exponent_integer by solve_digits.
      rewrite exp_value_format. cbn [length]. change (digits_value [digit_char d]) with (10 * 0 + digit_val (digit_char d)).
      rewrite digit_val_digit_char by exact Hd.
      change (dval (d :: nil)) with (10 * 0 + d). reflexivity.
    + change (list_of_string
                (String (digit_char d)
                   ("." +:+ digits_string (d2 :: rest) +:+ "e" +:+ format_exponent (decpt - 1))))
        with (digit_char d :: "."%char ::
              list_of_string (digits_string (d2 :: rest) +:+ "e" +:+ format_exponent (decpt - 1))).
      rewrite list_of_string_app, list_of_digits_string.
      change (list_of_string ("e" +:+ format_exponent (decpt - 1)))
        with ("e"%char :: list_of_string (format_exponent (decpt - 1))).
      match goal with
      | |- context [decode_numeral (?a :: "."%char :: ?x)] =>
          change (a :: "."%char :: x) with ((a :: nil) ++ "."%char :: x)
      end.
      rewrite (decode_exponent (digit_char d :: nil)) by solve_digits.
      rewrite exp_value_format.
      change ((digit_char d :: nil) ++ map digit_char (d2 :: rest))
        with (map digit_char (d :: d2 :: rest)).
      rewrite digits_value_map by exact Hok. rewrite length_map.
      f_equal. cbn [length]. lia.
  - destruct (Z.leb_spec decpt 0) as [Hle|Hgt].
    + change (list_of_string ("0." +:+ zeros (- decpt) +:+ digits_string ds))
        with (("0"%char :: nil) ++ "."%char ::
              list_of_string (zeros (- decpt) +:+ digits_string ds)).
      rewrite list_of_string_app, list_of_zeros, list_of_digits_string.
      rewrite decode_positional by solve_digits.
      change (("0"%char :: nil) ++ repeat "0"%char (Z.to_nat (- decpt)) ++ map digit_char ds)
        with (repeat "0"%char (S (Z.to_nat (- decpt))) ++ map digit_char ds).
      rewrite digits_value_app, digits_value_zeros, digits_value_map by exact Hok.
      rewrite length_app, repeat_length, length_map.
      f_equal; lia.
    + destruct (Z.ltb_spec decpt (Z.of_nat (length ds))) as [Hlt|Hge].
      * rewrite list_of_string_app.
        change (list_of_string ("." +:+ digits_string (drop (Z.to_nat decpt) ds)))
          with ("."%char :: list_of_string (digits_string (drop (Z.to_nat decpt) ds))).
        rewrite !list_of_digits_string.
        rewrite decode_positional by solve_digits.
        rewrite <- map_app, take_drop, digits_value_map by exact Hok.
        rewrite length_map, length_drop. f_equal. lia.
      * rewrite !list_of_string_app, list_of_digits_string, list_of_zeros.
        change (list_of_string ".0") with ("."%char :: "0"%char :: nil).
        rewrite app_assoc.
        rewrite decode_positional by solve_digits.
        rewrite <- app_assoc, digits_value_app, digits_value_map by exact Hok.
        rewrite digits_value_app, digits_value_zeros. cbn [length].
        change (digits_value ("0"%char :: nil)) with 0.
        rewrite length_app, repeat_length. cbn [length].
        replace (dval ds * 10 ^ Z.of_nat (Z.to_nat (decpt - Z.of_nat (length ds)) + 1) +
                 (0 * 10 ^ Z.of_nat 1 + 0))
          with (dval ds * 10 ^ Z.of_nat (Z.to_nat (decpt - Z.of_nat (length ds)) + 1)) by ring.
        rewrite decimal_shift. f_equal. lia.
Qed.

Lemma format_float_short_head ds decpt :
  Forall digit_ok ds -> ds <> nil ->
  exists c r, format_float_short ds decpt = String c r /\ is_digit c = true.
Proof.
  intros Hok Hnil. destruct ds as [|d rest]; [contradiction|].
  inversion Hok as [|? ? Hd Hrest]; subst.
  pose proof (is_digit_digit_char d Hd) as Hc.
  unfold format_float_short.
  destruct ((decpt <=? -4) || (16 <? decpt)).
  - destruct rest; eauto.
  - destruct (Z.leb_spec decpt 0) as [Hle|Hgt]; [eexists _, _; split; reflexivity|].
    destruct (Z.ltb_spec decpt (Z.of_nat (length (d :: rest)))) as [Hlt|Hge].
    + destruct (Z.to_nat decpt) as [|k] eqn:Hk; [lia|].
      exists (digit_char d). eexists. split; [reflexivity|exact Hc].
    + exists (digit_char d). eexists. split; [reflexivity|exact Hc].
Qed.

Lemma unsigned_part_digit c r :
  is_digit c = true -> unsigned_part (String c r) = (false, String c r).
Proof.
  unfold is_digit, unsigned_part. intros H. apply andb_prop in H as [H1 H2].
  apply Z.leb_le in H1. destruct (Z.eqb_spec (code c) 45); [lia|reflexivity].
Qed.

Lemma rounds_to_positive m e v : rounds_to m e v -> (0 < v)%R.
Proof.
  intros H. apply rounds_to_quarters in H as [L _].
  assert (Hq : (0 < IZR (low_quarters m e) * powerRZ 2 (e - 2))%R).
  { apply Rmult_lt_0_compat; [|apply powerRZ_2_pos].
    apply IZR_lt. unfold low_quarters.
    pose proof (Pos2Z.is_pos m). destruct (dtoa_spec_case m e); lia. }
  destruct (Z.even (Z.pos m)); cbn [bounded_byR] in L; lra.
Qed.

(** What [repr] prints for a finite non-zero float: a sign and a numeral
    that starts with a digit and denotes a real the float is the nearest
    to. *)
Lemma repr_SF_finite sign m e :
  exists body c r,
    repr_SF (S754_finite sign m e) = (if sign then "-" else "") +:+ body /\
    body = String c r /\ is_digit c = true /\
    unsigned_part (repr_SF (S754_finite sign m e)) = (sign, body) /\
    rounds_to m e (numeral_value body).
Proof.
  cbn [repr_SF]. destruct (dtoa m e) as [ds decpt] eqn:Hd.
  destruct (dtoa_rounds_to _ _ _ _ Hd) as (Hok & Hnil & Hr).
  destruct (format_float_short_head ds decpt Hok Hnil) as (c & r & Hf & Hc).
  exists (format_float_short ds decpt), c, r.
  split; [reflexivity|]. split; [exact Hf|]. split; [exact Hc|]. split.
  - rewrite Hf. destruct sign.
    + reflexivity.
    + change ("" +:+ String c r) with (String c r). now apply unsigned_part_digit.
  - now rewrite numeral_value_format.
Qed.

Lemma numeral_value_zero : numeral_value "0.0" = 0%R.
Proof.
  unfold numeral_value. change (decode_numeral (list_of_string "0.0")) with (0, -1).
  unfold decimal. apply Rmult_0_l.
Qed.

(** [repr] tells any two binary64 values apart. *)
Theorem repr_SF_inj x y :
  SpecFloat.valid_binary prec emax x = true ->
  SpecFloat.valid_binary prec emax y = true ->
  repr_SF x = repr_SF y -> x = y.
Proof.
  intros Hx Hy Heq.
  assert (Hu : unsigned_part (repr_SF x) = unsigned_part (repr_SF y)) by now rewrite Heq.
  destruct x as [sx|sx| |sx mx ex], y as [sy|sy| |sy my ey];
    try (destruct sx; discriminate Heq);
    try (destruct sy; discriminate Heq);
    try (destruct sx, sy; discriminate Heq);
    try reflexivity.
  - destruct sx, sy; try reflexivity; discriminate Heq.
  - destruct (repr_SF_finite sy my ey) as (body & c & r & _ & Hb & Hc & Hup & Hr).
    rewrite Hup in Hu.
    assert (body = "0.0"%string) as -> by (destruct sx; vm_compute in Hu; congruence).
    apply rounds_to_positive in Hr. rewrite numeral_value_zero in Hr. lra.
  - destruct sx, sy; try reflexivity; discriminate Heq.
  - destruct (repr_SF_finite sy my ey) as (body & c & r & _ & Hb & Hc & Hup & Hr).
    rewrite Hup in Hu.
    assert (body = "inf"%string) as Hbi by (destruct sx; vm_compute in Hu; congruence).
    rewrite Hbi in Hb. injection Hb as <- _. discriminate Hc.
  - destruct (repr_SF_finite sy my ey) as (body & c & r & _ & Hb & Hc & Hup & Hr).
    rewrite Hup in Hu.
    assert (body = "nan"%string) as Hbi by (vm_compute in Hu; congruence).
    rewrite Hbi in Hb. injection Hb as <- _. discriminate Hc.
  - destruct (repr_SF_finite sx mx ex) as (body & c & r & _ & Hb & Hc & Hup & Hr).
    rewrite Hup in Hu.
    assert (body = "0.0"%string) as -> by (destruct sy; vm_compute in Hu; congruence).
    apply rounds_to_positive in Hr. rewrite numeral_value_zero in Hr. lra.
  - destruct (repr_SF_finite sx mx ex) as (body & c & r & _ & Hb & Hc & Hup & Hr).
    rewrite Hup in Hu.
    assert (body = "inf"%string) as Hbi by (destruct sy; vm_compute in Hu; congruence).
    rewrite Hbi in Hb. injection Hb as <- _. discriminate Hc.
  - destruct (repr_SF_finite sx mx ex) as (body & c & r & _ & Hb & Hc & Hup & Hr).
    rewrite Hup in Hu.
    assert (body = "nan"%string) as Hbi by (vm_compute in Hu; congruence).
    rewrite Hbi in Hb. injection Hb as <- _. discriminate Hc.
  - destruct (repr_SF_finite sx mx ex) as (body & c & r & _ & _ & _ & Hup & Hr).
    destruct (repr_SF_finite sy my ey) as (body' & c' & r' & _ & _ & _ & Hup' & Hr').
    rewrite Hup, Hup' in Hu. injection Hu as -> ->.
    cbn [SpecFloat.valid_binary] in Hx, Hy.
    destruct (rounds_to_inj _ _ _ _ _ Hx Hy Hr Hr') as [-> ->]. reflexivity.
Qed.

Lemma Prim2SF_inj x y : Prim2SF x = Prim2SF y -> x = y.
Proof.
  intros H. rewrite <- (SF2Prim_Prim2SF x), <- (SF2Prim_Prim2SF y). now rewrite H.
Qed.

(** [repr] is injective on floats. *)
Theorem float_repr_inj x y : float_repr x = float_repr y -> x = y.
Proof.
  intros H. apply Prim2SF_inj. apply repr_SF_inj; auto using Prim2SF_valid.
Qed.

(** ** The characters of a key *)

Lemma no_underscore_app a b : no_underscore a -> no_underscore b -> no_underscore (a ++ b).
Proof. apply Forall_app_2. Qed.

Lemma no_underscore_cons c l : c <> "_"%char -> no_underscore l -> no_underscore (c :: l).
Proof. intros. now constructor. Qed.

Lemma digits_only_no_underscore l : digits_only l -> no_underscore l.
Proof. apply digits_only_not. reflexivity. Qed.

Lemma string_of_uint_digits d : digits_only (list_of_string (NilEmpty.string_of_uint d)).
Proof.
  induction d; cbn [NilEmpty.string_of_uint list_of_string];
    constructor; try reflexivity; assumption.
Qed.

Lemma str_of_Z_digits n : 0 <= n -> digits_only (list_of_string (str_of_Z n)).
Proof.
  intros Hn. unfold str_of_Z. destruct n as [|p|p]; [|..|lia].
  - repeat constructor.
  - cbn [Z.to_int NilZero.string_of_int]. unfold NilZero.string_of_uint.
    destruct (Pos.to_uint p) eqn:E; try (rewrite <- E; apply string_of_uint_digits).
    repeat constructor.
Qed.

Lemma format_exponent_no_underscore ex :
  no_underscore (list_of_string (format_exponent ex)).
Proof.
  unfold format_exponent. rewrite !list_of_string_app.
  repeat apply no_underscore_app.
  - destruct (ex <? 0); repeat constructor; discriminate.
  - destruct (Z.abs ex <? 10); repeat constructor; discriminate.
  - apply digits_only_no_underscore, str_of_Z_digits. lia.
Qed.

Ltac solve_clean :=
  repeat first
    [ assumption
    | exact I
    | apply Forall_nil
    | apply no_underscore_app
    | apply format_exponent_no_underscore
    | (apply no_underscore_cons; [discriminate|])
    | (apply digits_only_no_underscore; solve [solve_digits]) ].

Lemma format_float_short_no_underscore ds decpt :
  Forall digit_ok ds ->
  no_underscore (list_of_string (format_float_short ds decpt)).
Proof.
  intros Hok. unfold format_float_short.
  destruct ((decpt <=? -4) || (16 <? decpt)).
  - destruct ds as [|d [|d2 rest]]; [constructor| |];
      inversion Hok as [|? ? Hd Hrest]; subst.
    + change (list_of_string (String (digit_char d) ("e" +:+ format_exponent (decpt - 1))))
        with ((digit_char d :: nil) ++ "e"%char :: list_of_string (format_exponent (decpt - 1))).
      solve_clean.
    + change (list_of_string
                (String (digit_char d)
                   ("." +:+ digits_string (d2 :: rest) +:+ "e" +:+ format_exponent (decpt - 1))))
        with ((digit_char d :: nil) ++ "."%char ::
              list_of_string (digits_string (d2 :: rest) +:+ "e" +:+ format_exponent (decpt - 1))).
      rewrite list_of_string_app, list_of_digits_string.
      change (list_of_string ("e" +:+ format_exponent (decpt - 1)))
        with ("e"%char :: list_of_string (format_exponent (decpt - 1))).
      solve_clean.
  - destruct (decpt <=? 0); [|destruct (decpt <? Z.of_nat (length ds))];
      rewrite !list_of_string_app, ?list_of_digits_string, ?list_of_zeros;
      solve_clean.
Qed.

(** [repr] of a float has no underscore. *)
Lemma float_repr_no_underscore x : no_underscore (list_of_string (float_repr x)).
Proof.
  unfold float_repr, repr_SF. destruct (Prim2SF x) as [s|s| |s m e].
  - destruct s; repeat constructor; discriminate.
  - destruct s; repeat constructor; discriminate.
  - repeat constructor; discriminate.
  - destruct (dtoa m e) as [ds decpt] eqn:Hd.
    destruct (dtoa_rounds_to _ _ _ _ Hd) as (Hok & _ & _).
    rewrite list_of_string_app. apply no_underscore_app.
    + destruct s; repeat constructor; discriminate.
    + now apply format_float_short_no_underscore.
Qed.

Ltac not_underscore :=
  let E := fresh in
  intros E; subst;
  repeat match goal with
    | H : _ && _ = true |- _ => apply andb_prop in H as [? ?]
    end;
  match goal with
  | H : is_digit "_" = true |- _ => discriminate H
  | H : in_range _ _ "_" = true |- _ => discriminate H
  | H : (code "_" =? _) = true |- _ => discriminate H
  end.

Lemma match_Y_prefix l y r :
  match_Y l = Some (y, r) -> exists pre, l = pre ++ r /\ no_underscore pre.
Proof.
  unfold match_Y. destruct l as [|a [|b [|c [|d l]]]]; try discriminate.
  destruct (is_digit a && is_digit b && is_digit c && is_digit d) eqn:E; [|discriminate].
  intros [= <- <-]. exists (a :: b :: c :: d :: nil). split; [reflexivity|].
  repeat constructor; not_underscore.
Qed.

Lemma match_hyphen_prefix l r :
  match_hyphen l = Some r -> exists pre, l = pre ++ r /\ no_underscore pre.
Proof.
  unfold match_hyphen. destruct l as [|c l]; [discriminate|].
  destruct (code c =? 45) eqn:E; [|discriminate].
  intros [= <-]. exists (c :: nil). split; [reflexivity|].
  repeat constructor; not_underscore.
Qed.

Lemma match_m_prefix l m r :
  match_m l = Some (m, r) -> exists pre, l = pre ++ r /\ no_underscore pre.
Proof.
  unfold match_m. destruct l as [|a [|b l]]; try discriminate.
  - destruct (in_range 49 57 a) eqn:E; [|discriminate].
    intros [= <- <-]. exists (a :: nil). split; [reflexivity|].
    repeat constructor; not_underscore.
  - destruct ((code a =? 49) && in_range 48 50 b) eqn:E1;
      [|destruct ((code a =? 48) && in_range 49 57 b) eqn:E2;
        [|destruct (in_range 49 57 a) eqn:E3; [|discriminate]]];
      intros [= <- <-].
    + exists (a :: b :: nil). split; [reflexivity|]. repeat constructor; not_underscore.
    + exists (a :: b :: nil). split; [reflexivity|]. repeat constructor; not_underscore.
    + exists (a :: nil). split; [reflexivity|]. repeat constructor; not_underscore.
Qed.

Lemma match_d_prefix l d r :
  match_d l = Some (d, r) -> exists pre, l = pre ++ r /\ no_underscore pre.
Proof.
  unfold match_d. destruct l as [|a [|b l]]; try discriminate.
  - destruct (in_range 49 57 a) eqn:E; [|discriminate].
    intros [= <- <-]. exists (a :: nil). split; [reflexivity|].
    repeat constructor; not_underscore.
  - destruct ((code a =? 51) && in_range 48 49 b) eqn:E1;
      [|destruct (in_range 49 50 a && is_digit b) eqn:E2;
        [|destruct ((code a =? 48) && in_range 49 57 b) eqn:E3;
          [|destruct (in_range 49 57 a) eqn:E4;
            [|destruct ((code a =? 32) && in_range 49 57 b) eqn:E5; [|discriminate]]]]];
      intros [= <- <-].
    + exists (a :: b :: nil). split; [reflexivity|]. repeat constructor; not_underscore.
    + exists (a :: b :: nil). split; [reflexivity|]. repeat constructor; not_underscore.
    + exists (a :: b :: nil). split; [reflexivity|]. repeat constructor; not_underscore.
    + exists (a :: nil). split; [reflexivity|]. repeat constructor; not_underscore.
    + exists (a :: b :: nil). split; [reflexivity|]. repeat constructor; not_underscore.
Qed.

(** A string [strptime] accepts has no underscore. *)
Lemma strptime_no_underscore s d :
  strptime s = inr d -> no_underscore (list_of_string s).
Proof.
  unfold strptime.
  destruct (match_Y (list_of_string s)) as [[y r1]|] eqn:HY; [|discriminate].
  destruct (match_hyphen r1) as [r2|] eqn:H1; [|discriminate].
  destruct (match_m r2) as [[m r3]|] eqn:HM; [|discriminate].
  destruct (match_hyphen r3) as [r4|] eqn:H2; [|discriminate].
  destruct (match_d r4) as [[dd [|? ?]]|] eqn:HD; try discriminate.
  intros _.
  apply match_Y_prefix in HY as (p1 & -> & C1).
  apply match_hyphen_prefix in H1 as (p2 & -> & C2).
  apply match_m_prefix in HM as (p3 & -> & C3).
  apply match_hyphen_prefix in H2 as (p4 & -> & C4).
  apply match_d_prefix in HD as (p5 & -> & C5).
  repeat apply no_underscore_app; auto. constructor.
Qed.

(** *** The object key *)
Lemma split_underscore a a' r r' :
  no_underscore a -> no_underscore a' ->
  a ++ "_"%char :: r = a' ++ "_"%char :: r' -> a = a' /\ r = r'.
Proof.
  intros Ha Ha' H.
  assert (E : split_at "_" (a ++ "_"%char :: r) = split_at "_" (a' ++ "_"%char :: r'))
    by now rewrite H.
  rewrite !split_at_found in E by assumption.
  now injection E as -> ->.
Qed.

Lemma file_name_chars lat lon s e :
  list_of_string (file_name lat lon (PStr s) (PStr e)) =
    list_of_string "weather_data_" ++
    list_of_string (float_repr lat) ++ "_"%char ::
    list_of_string (float_repr lon) ++ "_"%char ::
    list_of_string s ++ "_"%char ::
    list_of_string "to_" ++ list_of_string e ++ list_of_string ".json".
Proof.
  unfold file_name, py_str. rewrite !list_of_string_app.
  repeat (f_equal; try reflexivity).
Qed.

Lemma file_name_inj lat lon s e lat' lon' s' e' :
  no_underscore (list_of_string s) -> no_underscore (list_of_string s') ->
  file_name lat lon (PStr s) (PStr e) = file_name lat' lon' (PStr s') (PStr e') ->
  lat = lat' /\ lon = lon' /\ s = s' /\ e = e'.
Proof.
  intros Hs Hs' H. apply (f_equal list_of_string) in H.
  rewrite !file_name_chars in H.
  apply app_inv_head in H.
  apply split_underscore in H as [Hlat H]; try apply float_repr_no_underscore.
  apply split_underscore in H as [Hlon H]; try apply float_repr_no_underscore.
  apply split_underscore in H as [Hstart H]; try assumption.
  apply app_inv_head in H. apply app_inv_tail in H.
  repeat split.
  - now apply float_repr_inj, list_of_string_inj.
  - now apply float_repr_inj, list_of_string_inj.
  - now apply list_of_string_inj.
  - now apply list_of_string_inj.
Qed.

(** C5. The key of line 106 is the text [weather_data_], the [repr] of the
    latitude, an underscore, the [repr] of the longitude, an underscore, the
    start date string, [_to_], the end date string and [.json]. For date
    strings that [strptime] accepts, two keys are equal exactly when the two
    latitudes, the two longitudes and the two pairs of date strings are
    equal: equal inputs give equal keys, and inputs that differ in one field
    give different keys. The scenario input gives
    [weather_data_52.52_13.405_2023-01-01_to_2023-01-03.json]. *)
Theorem object_key_builder lat lon s e lat' lon' s' e' d1 d2 d1' d2' :
  strptime s = inr d1 -> strptime e = inr d2 ->
  strptime s' = inr d1' -> strptime e' = inr d2' ->
  file_name lat lon (PStr s) (PStr e) =
    "weather_data_" +:+ float_repr lat +:+ "_" +:+ float_repr lon +:+ "_" +:+
    s +:+ "_to_" +:+ e +:+ ".json" /\
  (file_name lat lon (PStr s) (PStr e) = file_name lat' lon' (PStr s') (PStr e') <->
   lat = lat' /\ lon = lon' /\ s = s' /\ e = e') /\
  file_name 52.52 13.405 (PStr "2023-01-01") (PStr "2023-01-03") =
    "weather_data_52.52_13.405_2023-01-01_to_2023-01-03.json"%string.
Proof.
  intros Hs He Hs' He'. split; [reflexivity|]. split.
  - split.
    + apply file_name_inj; eapply strptime_no_underscore; eassumption.
    + now intros (-> & -> & -> & ->).
  - vm_compute. reflexivity.
Qed.

Lemma object_key_builder_witness :
  file_name 52.52 13.405 (PStr "2023-01-01") (PStr "2023-01-03") =
    "weather_data_" +:+ float_repr 52.52 +:+ "_" +:+ float_repr 13.405 +:+ "_" +:+
    "2023-01-01" +:+ "_to_" +:+ "2023-01-03" +:+ ".json" /\
  (file_name 52.52 13.405 (PStr "2023-01-01") (PStr "2023-01-03") =
   file_name 52.52 13.4 (PStr "2023-01-01") (PStr "2023-01-03") <->
   52.52%float = 52.52%float /\ 13.405%float = 13.4%float /\
   "2023-01-01"%string = "2023-01-01"%string /\ "2023-01-03"%string = "2023-01-03"%string) /\
  file_name 52.52 13.405 (PStr "2023-01-01") (PStr "2023-01-03") =
    "weather_data_52.52_13.405_2023-01-01_to_2023-01-03.json"%string.
Proof.
  apply (object_key_builder 52.52 13.405 "2023-01-01" "2023-01-03"
                            52.52 13.4 "2023-01-01" "2023-01-03"
                            (mkdate 2023 1 1) (mkdate 2023 1 3)
                            (mkdate 2023 1 1) (mkdate 2023 1 3)); reflexivity.
Defined.

(** * Further properties *)

(** ** The reading handlers *)

(** How [list_weather_files] ends, by the first request that fails. *)
Lemma list_weather_files_cases env w :
  list_weather_files env w =
    match gcs_fault env NewClient with
    | Some e => (read_except e, mkWorld (bucket w) (GcsRequest NewClient :: calls w))
    | None =>
        match gcs_fault env GetBucket with
        | Some e =>
            (read_except e,
             mkWorld (bucket w) (GcsRequest GetBucket :: GcsRequest NewClient :: calls w))
        | None =>
            let log := GcsRequest ListBlobs :: GcsRequest GetBucket ::
                       GcsRequest NewClient :: calls w in
            match gcs_fault env ListBlobs with
            | Some e => (read_except e, mkWorld (bucket w) log)
            | None =>
                (mkResp (PList (map PStr (elements (dom (bucket w))))) 200,
                 mkWorld (bucket w) log)
            end
        end
    end.
Proof.
  unfold list_weather_files, handle, list_blobs, gcs, bind, lift, log, ret. cbn.
  destruct (gcs_fault env NewClient); [reflexivity|]. cbn.
  destruct (gcs_fault env GetBucket); [reflexivity|]. cbn.
  destruct (gcs_fault env ListBlobs); reflexivity.
Qed.

(** How [get_weather_file_content] ends. *)
Lemma get_weather_file_content_cases env name w :
  get_weather_file_content env name w =
    match gcs_fault env NewClient with
    | Some e => (read_except e, mkWorld (bucket w) (GcsRequest NewClient :: calls w))
    | None =>
        match gcs_fault env GetBucket with
        | Some e =>
            (read_except e,
             mkWorld (bucket w) (GcsRequest GetBucket :: GcsRequest NewClient :: calls w))
        | None =>
            let log := GcsRequest (BlobExists name) :: GcsRequest GetBucket ::
                       GcsRequest NewClient :: calls w in
            match gcs_fault env (BlobExists name) with
            | Some e => (read_except e, mkWorld (bucket w) log)
            | None =>
                match bucket w !! name with
                | None => (mkResp (error_body "File not found.") 404, mkWorld (bucket w) log)
                | Some content =>
                    let log := GcsRequest (DownloadAsText name) :: log in
                    match gcs_fault env (DownloadAsText name) with
                    | Some e => (read_except e, mkWorld (bucket w) log)
                    | None =>
                        match json_loads env content with
                        | Some decoded => (mkResp decoded 200, mkWorld (bucket w) log)
                        | None =>
                            (read_except
                               (ValueError "Expecting value: line 1 column 1 (char 0)"),
                             mkWorld (bucket w) log)
                        end
                    end
                end
            end
        end
    end.
Proof.
  unfold get_weather_file_content, handle, blob_exists, download_as_text, gcs, bind, lift,
    log, ret. cbn.
  destruct (gcs_fault env NewClient); [reflexivity|]. cbn.
  destruct (gcs_fault env GetBucket); [reflexivity|]. cbn.
  destruct (gcs_fault env (BlobExists name)); [reflexivity|]. cbn.
  destruct (bucket w !! name) as [content|] eqn:Hb.
  - rewrite bool_decide_eq_true_2 by eauto. cbn.
    destruct (gcs_fault env (DownloadAsText name)); [reflexivity|]. cbn. rewrite Hb.
    destruct (json_loads env content); reflexivity.
  - rewrite bool_decide_eq_false_2 by (intros [? ?]; discriminate). reflexivity.
Qed.

Lemma read_except_status e : status (read_except e) = 500.
Proof. destruct e; reflexivity. Qed.

(** X1. When the three requests of [list_weather_files] go through (client,
    bucket, listing), the handler answers 200 with a JSON array that holds
    the name of every object of the bucket, each exactly once, and nothing
    else. *)
Theorem list_weather_files_names env w :
  gcs_fault env NewClient = None ->
  gcs_fault env GetBucket = None ->
  gcs_fault env ListBlobs = None ->
  exists names,
    fst (list_weather_files env w) = mkResp (PList (map PStr names)) 200 /\
    NoDup names /\
    (forall name, name ∈ names <-> is_Some (bucket w !! name)).
Proof.
  intros F1 F2 F3. rewrite list_weather_files_cases, F1, F2, F3. cbn [fst].
  exists (elements (dom (bucket w))). split; [reflexivity|]. split.
  - apply NoDup_elements.
  - intros name. rewrite elem_of_elements. apply elem_of_dom.
Qed.

Lemma list_weather_files_names_witness :
  exists names,
    fst (list_weather_files env_ok world1) = mkResp (PList (map PStr names)) 200 /\
    NoDup names /\
    (forall name, name ∈ names <-> is_Some (bucket world1 !! name)).
Proof. apply (list_weather_files_names env_ok world1); reflexivity. Defined.

(** X2. [list_weather_files] answers 200 or 500 and nothing else, and it
    answers 200 exactly when none of its three bucket requests fails: any
    failure, whatever its class, is a 500. *)
Theorem list_weather_files_status env w :
  (status (fst (list_weather_files env w)) = 200 \/
   status (fst (list_weather_files env w)) = 500) /\
  (status (fst (list_weather_files env w)) = 200 <->
   gcs_fault env NewClient = None /\ gcs_fault env GetBucket = None /\
   gcs_fault env ListBlobs = None).
Proof.
  rewrite list_weather_files_cases.
  destruct (gcs_fault env NewClient) as [e1|];
    [|destruct (gcs_fault env GetBucket) as [e2|];
      [|destruct (gcs_fault env ListBlobs) as [e3|]]];
    cbn [fst status]; rewrite ?read_except_status;
    (split; [auto|]); split; try discriminate; auto;
    intros (H1 & H2 & H3); discriminate.
Qed.


(** X4. Neither reading handler changes the bucket, on any path, failing or
    not. *)
Theorem reading_handlers_write_nothing env name w :
  bucket (snd (list_weather_files env w)) = bucket w /\
  bucket (snd (get_weather_file_content env name w)) = bucket w.
Proof.
  rewrite list_weather_files_cases, get_weather_file_content_cases.
  split.
  - destruct (gcs_fault env NewClient); [reflexivity|].
    destruct (gcs_fault env GetBucket); [reflexivity|].
    destruct (gcs_fault env ListBlobs); reflexivity.
  - destruct (gcs_fault env NewClient); [reflexivity|].
    destruct (gcs_fault env GetBucket); [reflexivity|].
    destruct (gcs_fault env (BlobExists name)); [reflexivity|].
    destruct (bucket w !! name); [|reflexivity].
    destruct (gcs_fault env (DownloadAsText name)); [reflexivity|].
    destruct (json_loads env s); reflexivity.
Qed.

(** ** [store_weather_data]: the paths that end before the upstream call *)

(** Every response the validation returns by itself is a 400. *)
Lemma validate_inl req r : validate req = Ok (inl r) -> status r = 400.
Proof.
  unfold validate, rbind. intros H.
  destruct (get_json req) as [data|]; [|discriminate].
  destruct (negb (truthy data)); [injection H as <-; reflexivity|].
  destruct (get data "latitude"); [|discriminate].
  destruct (builtin_float _); [|discriminate].
  destruct (get data "longitude"); [|discriminate].
  destruct (builtin_float _); [|discriminate].
  destruct (get data "start_date"); [|discriminate].
  destruct (get data "end_date"); [|discriminate].
  destruct (negb _); [injection H as <-; reflexivity|].
  destruct (datetime_strptime _); [|discriminate].
  destruct (datetime_strptime _); [|discriminate].
  destruct (date_gt _ _); [injection H as <-; reflexivity|discriminate].
Qed.

Lemma store_except_status e :
  status (store_except e) = 400 \/ status (store_except e) = 500.
Proof. destruct e; cbn; auto. Qed.

(** The three ways the validation ends, and what the handler does next. *)
Lemma store_weather_data_outcome env req w :
  (exists r, validate req = Ok (inl r) /\ status r = 400 /\
             store_weather_data env req w = (r, w)) \/
  (exists e, validate req = Raise e /\
             store_weather_data env req w = (store_except e, w)) \/
  (exists v, validate req = Ok (inr v) /\
             fetch_outcome env v w (store_weather_data env req w)).
Proof.
  destruct (validate req) as [[r|v]|e] eqn:Hv.
  - left. exists r. split; [reflexivity|]. split; [exact (validate_inl _ _ Hv)|].
    now apply store_early.
  - right. right. exists v. split; [reflexivity|].
    rewrite (store_valid env req w v Hv). apply fetch_and_store_outcome.
  - right. left. exists e. split; [reflexivity|]. now apply store_raise.
Qed.

(** X5. A decoded body that is false in Python (null, false, 0, 0.0, the
    empty string, the empty array, the empty object) is answered 400 with
    the error "Invalid JSON payload", before any key is read, and nothing
    outside the program is contacted. *)
Theorem falsy_body_is_invalid_payload env data w :
  truthy data = false ->
  store_weather_data env (mkRequest (Ok data)) w =
    (mkResp (error_body "Invalid JSON payload") 400, w).
Proof.
  intros Ht. apply store_early. unfold validate. cbn [get_json rbind].
  now rewrite Ht.
Qed.

Lemma falsy_body_is_invalid_payload_witness :
  store_weather_data env_ok (mkRequest (Ok (PDict nil))) world0 =
    (mkResp (error_body "Invalid JSON payload") 400, world0).
Proof. apply (falsy_body_is_invalid_payload env_ok (PDict nil) world0). reflexivity. Defined.

(** X6. A decoded body that is true in Python but is not an object (a
    non-empty array or string, a non-zero number, true) is answered 500, not
    400: [data.get] raises [AttributeError] and the generic clause catches
    it. Nothing outside the program is contacted. *)
Theorem non_object_body_is_500 env data w :
  truthy data = true -> (forall d, data <> PDict d) ->
  store_weather_data env (mkRequest (Ok data)) w =
    (mkResp (error_body ("An unexpected error occurred: '" +:+ type_name data +:+
                         "' object has no attribute 'get'")) 500, w).
Proof.
  intros Ht Hd.
  rewrite (store_raise env _ w
             (OtherError ("'" +:+ type_name data +:+ "' object has no attribute 'get'"))).
  - reflexivity.
  - unfold validate. cbn [get_json rbind]. rewrite Ht. cbn [negb].
    destruct data as [| | | | | |d]; try reflexivity. now destruct (Hd d).
Qed.

Lemma non_object_body_is_500_witness :
  store_weather_data env_ok (mkRequest (Ok (PList (PFloat 52.52 :: PFloat 13.405 :: nil)))) world0 =
    (mkResp (error_body
       "An unexpected error occurred: 'list' object has no attribute 'get'") 500, world0).
Proof.
  apply (non_object_body_is_500 env_ok (PList (PFloat 52.52 :: PFloat 13.405 :: nil)) world0).
  - reflexivity.
  - discriminate.
Defined.

(** X7. When both coordinates convert, a start or end date that is absent or
    otherwise false in Python (null, the empty string, 0, false, an empty
    array or object) is answered 400 with "Missing required parameters",
    and nothing outside the program is contacted. *)
Theorem absent_date_is_missing env d lat lon w :
  builtin_float (dict_get d "latitude") = Ok lat ->
  builtin_float (dict_get d "longitude") = Ok lon ->
  truthy (dict_get d "start_date") = false \/ truthy (dict_get d "end_date") = false ->
  store_weather_data env (mkRequest (Ok (PDict d))) w =
    (mkResp (error_body "Missing required parameters") 400, w).
Proof.
  intros Hlat Hlon Hdate. apply store_early.
  rewrite (validate_floats _ _ _ Hlat Hlon).
  unfold all. cbn [forallb]. 
  destruct Hdate as [-> | ->]; rewrite ?andb_false_r; reflexivity.
Qed.

Lemma absent_date_is_missing_witness :
  store_weather_data env_ok
    (mkRequest (Ok (PDict (("latitude", PFloat 52.52) :: ("longitude", PFloat 13.405) ::
                           ("start_date", PStr "2023-01-01") :: nil)))) world0 =
    (mkResp (error_body "Missing required parameters") 400, world0).
Proof.
  apply (absent_date_is_missing env_ok _ 52.52%float 13.405%float world0).
  - reflexivity.
  - reflexivity.
  - right. reflexivity.
Defined.

Lemma truthy_PStr' s : s <> ""%string -> truthy (PStr s) = true.
Proof. destruct s; [congruence|reflexivity]. Qed.

(** X8. With coordinates that convert to non-zero floats: a non-empty start
    date string that [strptime] rejects is answered 400 with the message of
    that rejection as soon as the end date is present, whatever the end date
    is; and when the start date is accepted, a non-empty end date string
    that [strptime] rejects is answered 400 with its message. Nothing
    outside the program is contacted. *)
Theorem malformed_date_is_400 env d lat lon w :
  builtin_float (dict_get d "latitude") = Ok lat ->
  builtin_float (dict_get d "longitude") = Ok lon ->
  float_bool lat = true -> float_bool lon = true ->
  (forall s1 err,
     dict_get d "start_date" = PStr s1 -> s1 <> ""%string ->
     truthy (dict_get d "end_date") = true ->
     strptime s1 = inl err ->
     store_weather_data env (mkRequest (Ok (PDict d))) w =
       (mkResp (error_body (strptime_message s1 err)) 400, w)) /\
  (forall s1 d1 s2 err,
     dict_get d "start_date" = PStr s1 -> strptime s1 = inr d1 ->
     dict_get d "end_date" = PStr s2 -> s2 <> ""%string ->
     strptime s2 = inl err ->
     store_weather_data env (mkRequest (Ok (PDict d))) w =
       (mkResp (error_body (strptime_message s2 err)) 400, w)).
Proof.
  intros Hlat Hlon Hb1 Hb2. split.
  - intros s1 err Hs1 Hne He Hp.
    rewrite (store_raise env _ w (ValueError (strptime_message s1 err))); [reflexivity|].
    rewrite (validate_floats _ _ _ Hlat Hlon).
    unfold all. cbn [forallb truthy]. rewrite Hb1, Hb2, He, Hs1.
    rewrite (truthy_PStr' _ Hne). cbn [andb negb datetime_strptime]. now rewrite Hp.
  - intros s1 d1 s2 err Hs1 Hp1 Hs2 Hne Hp2.
    rewrite (store_raise env _ w (ValueError (strptime_message s2 err))); [reflexivity|].
    rewrite (validate_floats _ _ _ Hlat Hlon).
    unfold all. cbn [forallb truthy]. rewrite Hb1, Hb2, Hs1, Hs2.
    rewrite (truthy_PStr' _ Hne), (truthy_PStr' _ (strptime_nonempty _ _ Hp1)).
    cbn [andb negb datetime_strptime rbind]. rewrite Hp1. cbn [rbind]. now rewrite Hp2.
Qed.

(** X9. With coordinates that convert to non-zero floats and two dates that
    are true in Python, a start date that is not a string (a number, true,
    an array, an object) is answered 500, not 400: [strptime] raises
    [TypeError]. Nothing outside the program is contacted. *)
Theorem non_string_date_is_500 env d lat lon w :
  builtin_float (dict_get d "latitude") = Ok lat ->
  builtin_float (dict_get d "longitude") = Ok lon ->
  float_bool lat = true -> float_bool lon = true ->
  truthy (dict_get d "start_date") = true ->
  truthy (dict_get d "end_date") = true ->
  (forall s, dict_get d "start_date" <> PStr s) ->
  store_weather_data env (mkRequest (Ok (PDict d))) w =
    (mkResp (error_body ("An unexpected error occurred: strptime() argument 1 must be str, not "
                         +:+ type_name (dict_get d "start_date"))) 500, w).
Proof.
  intros Hlat Hlon Hb1 Hb2 H1 H2 Hs.
  rewrite (store_raise env _ w
     (OtherError ("strptime() argument 1 must be str, not "
                  +:+ type_name (dict_get d "start_date")))); [reflexivity|].
  rewrite (validate_floats _ _ _ Hlat Hlon).
  unfold all. cbn [forallb truthy]. rewrite Hb1, Hb2, H1, H2. cbn [andb negb].
  destruct (dict_get d "start_date") as [| | | |s| |]; try reflexivity. now destruct (Hs s).
Qed.

Lemma malformed_date_is_400_witness :
  store_weather_data env_ok (mkRequest (Ok (body_berlin "2023-02-30" "01/03/2023"))) world0 =
    (mkResp (error_body "day is out of range for month") 400, world0) /\
  store_weather_data env_ok (mkRequest (Ok (body_berlin "2023-01-01" "2023-01-03T00:00"))) world0 =
    (mkResp (error_body "unconverted data remains: T00:00") 400, world0).
Proof.
  destruct (malformed_date_is_400 env_ok
              (("latitude", PFloat 52.52) :: ("longitude", PFloat 13.405) ::
               ("start_date", PStr "2023-02-30") :: ("end_date", PStr "01/03/2023") :: nil)
              52.52%float 13.405%float world0) as [H1 _]; try reflexivity.
  destruct (malformed_date_is_400 env_ok
              (("latitude", PFloat 52.52) :: ("longitude", PFloat 13.405) ::
               ("start_date", PStr "2023-01-01") :: ("end_date", PStr "2023-01-03T00:00") :: nil)
              52.52%float 13.405%float world0) as [_ H2]; try reflexivity.
  split.
  - apply (H1 "2023-02-30"%string DayOutOfRange); try reflexivity; discriminate.
  - apply (H2 "2023-01-01"%string (mkdate 2023 1 1) "2023-01-03T00:00"%string
              (Unconverted "T00:00")); try reflexivity; discriminate.
Defined.

Lemma non_string_date_is_500_witness :
  store_weather_data env_ok
    (mkRequest (Ok (PDict (("latitude", PFloat 52.52) :: ("longitude", PFloat 13.405) ::
                           ("start_date", PInt 20230101) ::
                           ("end_date", PStr "2023-01-03") :: nil)))) world0 =
    (mkResp (error_body
       "An unexpected error occurred: strptime() argument 1 must be str, not int") 500, world0).
Proof.
  apply (non_string_date_is_500 env_ok
           (("latitude", PFloat 52.52) :: ("longitude", PFloat 13.405) ::
            ("start_date", PInt 20230101) :: ("end_date", PStr "2023-01-03") :: nil)
           52.52%float 13.405%float world0);
    try reflexivity; discriminate.
Defined.

(** ** [store_weather_data]: from the upstream call on *)

(** X10. Once the validation has passed, an exception of the upstream client
    is answered by the [except] clause of its class (400 for a
    [ValueError], 500 otherwise) and an empty list of responses is answered
    502 "Failed to fetch data from Open-Meteo API". In both cases the
    upstream was asked once with the validated query, the bucket was not
    contacted and holds what it held. *)
Theorem upstream_failure_stores_nothing env req v w :
  validate req = Ok (inr v) ->
  (forall e, weather_api env url (params v) = Raise e ->
             store_weather_data env req w =
               (store_except e,
                mkWorld (bucket w) (UpstreamRequest url (params v) :: calls w))) /\
  (weather_api env url (params v) = Ok nil ->
   store_weather_data env req w =
     (mkResp (error_body "Failed to fetch data from Open-Meteo API") 502,
      mkWorld (bucket w) (UpstreamRequest url (params v) :: calls w))).
Proof.
  intros Hv. rewrite (store_valid env req w v Hv).
  unfold handle, fetch_and_store, call_weather_api, bind, lift, log, ret. cbn.
  split; [intros e|]; intros ->; reflexivity.
Qed.

Lemma upstream_failure_stores_nothing_witness :
  store_weather_data env_upstream_down
    (mkRequest (Ok (body_berlin "2023-01-01" "2023-01-03"))) world1 =
    (mkResp (error_body
       "An unexpected error occurred: failed to resolve archive-api.open-meteo.com") 500,
     mkWorld (bucket world1) (UpstreamRequest url (params berlin_validated) :: nil)) /\
  store_weather_data env_reader
    (mkRequest (Ok (body_berlin "2023-01-01" "2023-01-03"))) world1 =
    (mkResp (error_body "Failed to fetch data from Open-Meteo API") 502,
     mkWorld (bucket world1) (UpstreamRequest url (params berlin_validated) :: nil)).
Proof.
  split.
  - apply (proj1 (upstream_failure_stores_nothing env_upstream_down
                    (mkRequest (Ok (body_berlin "2023-01-01" "2023-01-03")))
                    berlin_validated world1 eq_refl)
                 (OtherError "failed to resolve archive-api.open-meteo.com")).
    reflexivity.
  - apply (proj2 (upstream_failure_stores_nothing env_reader
                    (mkRequest (Ok (body_berlin "2023-01-01" "2023-01-03")))
                    berlin_validated world1 eq_refl)).
    reflexivity.
Defined.

(** X11. When the upload of line 111 fails, the handler answers by the
    [except] clause of the exception's class; the upstream was asked once,
    the upload was tried once under the key of line 106 with the dumped
    record, and the bucket holds what it held. *)
Theorem upload_failure_keeps_bucket env req v w r0 rest dd e :
  validate req = Ok (inr v) ->
  weather_api env url (params v) = Ok (r0 :: rest) ->
  daily_data (Daily r0) = Ok dd ->
  gcs_fault env (UploadFromString
                   (file_name (latitude v) (longitude v)
                              (start_date_string v) (end_date_string v))
                   (json_dumps (file_data r0 v dd))) = Some e ->
  store_weather_data env req w =
    (store_except e,
     mkWorld (bucket w)
       (GcsRequest (UploadFromString
                      (file_name (latitude v) (longitude v)
                                 (start_date_string v) (end_date_string v))
                      (json_dumps (file_data r0 v dd))) ::
        UpstreamRequest url (params v) :: calls w)).
Proof.
  intros Hv Hapi Hdd Hf. rewrite (store_valid env req w v Hv).
  pose proof (fetch_and_store_outcome env v w) as Ho.
  inversion Ho as [e' Hapi' Heq|Hapi' Heq|r0' rest' e' Hapi' Hdd' Heq
                   |r0' rest' dd' e' Hapi' Hdd' name content Hf' Heq
                   |r0' rest' dd' Hapi' Hdd' name content Hf' Heq];
    try congruence; rewrite Hapi in Hapi'; injection Hapi' as <- <-;
    try congruence; rewrite Hdd in Hdd'; injection Hdd' as <-;
    subst name content; rewrite Hf in Hf'; [|discriminate].
  injection Hf' as <-. reflexivity.
Qed.

Lemma upload_failure_keeps_bucket_witness :
  store_weather_data env_bucket_down
    (mkRequest (Ok (body_berlin "2023-01-01" "2023-01-03"))) world1 =
    (mkResp (error_body "An unexpected error occurred: 503 Service Unavailable") 500,
     mkWorld (bucket world1)
       (GcsRequest (UploadFromString
                      "weather_data_52.52_13.405_2023-01-01_to_2023-01-03.json"
                      (json_dumps berlin_record)) ::
        UpstreamRequest url (params berlin_validated) :: nil)).
Proof.
  apply (upload_failure_keeps_bucket env_bucket_down
           (mkRequest (Ok (body_berlin "2023-01-01" "2023-01-03")))
           berlin_validated world1
           (mkResponse 52.54833 13.407822 daily_two_days) nil
           (PDict (("date", PList (PStr "2023-01-01" :: PStr "2023-01-02" :: nil)) ::
                   ("temperature_2m_max", float_list (1.5 :: 2.5 :: nil)) ::
                   ("temperature_2m_min", float_list (0.5 :: 1.5 :: nil)) ::
                   ("temperature_2m_mean", float_list (1 :: 2 :: nil)) ::
                   ("apparent_temperature_max", float_list (1.5 :: 2.5 :: nil)) ::
                   ("apparent_temperature_min", float_list (0.5 :: 1.5 :: nil)) ::
                   ("apparent_temperature_mean", float_list (1 :: 2 :: nil)) :: nil)%float)
           (OtherError "503 Service Unavailable"));
    reflexivity.
Defined.

(** X12. [store_weather_data] answers 200, 400, 500 or 502 and nothing else,
    and it answers 502 exactly when the validation passes and the upstream
    client returns an empty list for the validated query. *)
Theorem store_weather_data_status env req w :
  (status (fst (store_weather_data env req w)) = 200 \/
   status (fst (store_weather_data env req w)) = 400 \/
   status (fst (store_weather_data env req w)) = 500 \/
   status (fst (store_weather_data env req w)) = 502) /\
  (status (fst (store_weather_data env req w)) = 502 <->
   exists v, validate req = Ok (inr v) /\ weather_api env url (params v) = Ok nil).
Proof.
  destruct (store_weather_data_outcome env req w)
    as [(r & Hv & Hr & ->)|[(e & Hv & ->)|(v & Hv & Ho)]]; cbn [fst].
  - rewrite Hr. split; [auto|]. split; [discriminate|].
    intros (v & Hv' & _). congruence.
  - split; [destruct (store_except_status e) as [-> | ->]; auto|].
    split; [destruct (store_except_status e) as [-> | ->]; discriminate|].
    intros (v & Hv' & _). congruence.
  - assert (Hexc : forall e, (status (store_except e) = 200 \/ status (store_except e) = 400 \/
                              status (store_except e) = 500 \/ status (store_except e) = 502)
                             /\ status (store_except e) <> 502).
    { intros e. destruct (store_except_status e) as [-> | ->]; split; auto; discriminate. }
    inversion Ho as [e Hapi Heq|Hapi Heq|r0 rest e Hapi Hdd Heq
                     |r0 rest dd e Hapi Hdd name content Hf Heq
                     |r0 rest dd Hapi Hdd name content Hf Heq]; cbn [fst status].
    + split; [apply Hexc|]. split; [intros H; now apply Hexc in H|].
      intros (v' & Hv' & Hn). congruence.
    + split; [auto|]. split; [|reflexivity]. intros _. eauto.
    + split; [apply Hexc|]. split; [intros H; now apply Hexc in H|].
      intros (v' & Hv' & Hn). congruence.
    + split; [apply Hexc|]. split; [intros H; now apply Hexc in H|].
      intros (v' & Hv' & Hn). congruence.
    + split; [auto|]. split; [discriminate|].
      intros (v' & Hv' & Hn). congruence.
Qed.

(** X13. One call of [store_weather_data] contacts the outside world in one of
    three ways: not at all; one upstream request; one upstream request
    followed by one upload under the key of line 106. The upstream request
    carries the validated query, and the handler contacts nothing exactly
    when the validation does not pass. *)
Theorem store_weather_data_calls env req w :
  exists made,
    calls (snd (store_weather_data env req w)) = made ++ calls w /\
    (made = nil \/
     (exists v, validate req = Ok (inr v) /\
        (made = UpstreamRequest url (params v) :: nil \/
         exists content,
           made = GcsRequest (UploadFromString
                                (file_name (latitude v) (longitude v)
                                           (start_date_string v) (end_date_string v))
                                content)
                  :: UpstreamRequest url (params v) :: nil))) /\
    (made = nil <-> forall v, validate req <> Ok (inr v)).
Proof.
  destruct (store_weather_data_outcome env req w)
    as [(r & Hv & Hr & ->)|[(e & Hv & ->)|(v & Hv & Ho)]]; cbn [snd].
  - exists nil. split; [reflexivity|]. split; [auto|]. split; [congruence|reflexivity].
  - exists nil. split; [reflexivity|]. split; [auto|]. split; [congruence|reflexivity].
  - inversion Ho as [e Hapi Heq|Hapi Heq|r0 rest e Hapi Hdd Heq
                     |r0 rest dd e Hapi Hdd name content Hf Heq
                     |r0 rest dd Hapi Hdd name content Hf Heq]; cbn [snd calls].
    1-3: exists (UpstreamRequest url (params v) :: nil); split; [reflexivity|];
         (split; [right; exists v; auto|]); split; [discriminate|];
         intros H; now destruct (H v).
    1-2: exists (GcsRequest (UploadFromString name content) ::
                 UpstreamRequest url (params v) :: nil); split; [reflexivity|];
         (split; [right; exists v; split; [assumption|]; right; exists content; reflexivity|]);
         split; [discriminate|]; intros H; now destruct (H v).
Qed.

(** X14. [store_weather_data] leaves every object of the bucket as it was,
    except the one it names in a 200 response. *)
Theorem store_weather_data_frame env req w name :
  (forall message,
     fst (store_weather_data env req w) <>
       mkResp (PDict (("message", PStr message) :: ("file_name", PStr name) :: nil)) 200) ->
  bucket (snd (store_weather_data env req w)) !! name = bucket w !! name.
Proof.
  intros Hname.
  destruct (store_weather_data_outcome env req w)
    as [(r & Hv & Hr & Heq)|[(e & Hv & Heq)|(v & Hv & Ho)]].
  - now rewrite Heq.
  - now rewrite Heq.
  - inversion Ho as [e Hapi Heq|Hapi Heq|r0 rest e Hapi Hdd Heq
                     |r0 rest dd e Hapi Hdd key content Hf Heq
                     |r0 rest dd Hapi Hdd key content Hf Heq]; cbn [snd bucket];
      try reflexivity.
    destruct (decide (key = name)) as [Hk|Hk].
    + exfalso. apply (Hname "Data stored successfully in GCS"%string).
      rewrite <- Heq. cbn [fst]. now rewrite Hk.
    + now apply lookup_insert_ne.
Qed.

(** X15. The response of [store_weather_data] does not depend on what the
    bucket holds nor on the requests made before: the handler never reads
    the bucket, so an object that already exists under the key is replaced
    without notice. *)
Theorem store_weather_data_ignores_bucket env req w w' :
  fst (store_weather_data env req w) = fst (store_weather_data env req w').
Proof.
  unfold store_weather_data, handle, bind, lift.
  destruct (validate req) as [[r|v]|e]; try reflexivity.
  unfold fetch_and_store, call_weather_api, upload_from_string, gcs, bind, lift, log, ret. cbn.
  destruct (weather_api env url (params v)) as [[|r0 rest]|e]; try reflexivity.
  destruct (daily_data (Daily r0)) as [dd|e]; cbn; [|reflexivity].
  destruct (gcs_fault env _); reflexivity.
Qed.

(** X16. Repeating a request against the same environment gives the same
    response and leaves the bucket as the first call left it. *)
Theorem store_weather_data_twice env req w :
  fst (store_weather_data env req (snd (store_weather_data env req w))) =
    fst (store_weather_data env req w) /\
  bucket (snd (store_weather_data env req (snd (store_weather_data env req w)))) =
    bucket (snd (store_weather_data env req w)).
Proof.
  unfold store_weather_data, handle, bind, lift.
  destruct (validate req) as [[r|v]|e]; try (split; reflexivity).
  unfold fetch_and_store, call_weather_api, upload_from_string, gcs, bind, lift, log, ret. cbn.
  destruct (weather_api env url (params v)) as [[|r0 rest]|e]; try (split; reflexivity).
  destruct (daily_data (Daily r0)) as [dd|e]; cbn; [|split; reflexivity].
  destruct (gcs_fault env _); cbn; split; try reflexivity.
  apply insert_insert_eq.
Qed.

Lemma store_weather_data_frame_witness :
  bucket (snd (store_weather_data env_ok
                 (mkRequest (Ok (body_berlin "2023-01-01" "2023-01-03"))) world1))
    !! "weather_data_1.0_2.0_2020-01-01_to_2020-01-02.json"%string =
  bucket world1 !! "weather_data_1.0_2.0_2020-01-01_to_2020-01-02.json"%string.
Proof.
  apply (store_weather_data_frame env_ok
           (mkRequest (Ok (body_berlin "2023-01-01" "2023-01-03"))) world1
           "weather_data_1.0_2.0_2020-01-01_to_2020-01-02.json"%string).
  intros message H. vm_compute in H. discriminate H.
Defined.

(** ** Writing, then reading *)

(** What a 200 of [store_weather_data] that names [name] tells. *)
Lemma store_200_inv env req w message name :
  fst (store_weather_data env req w) =
    mkResp (PDict (("message", PStr message) :: ("file_name", PStr name) :: nil)) 200 ->
  exists v r0 rest dd,
    validate req = Ok (inr v) /\
    weather_api env url (params v) = Ok (r0 :: rest) /\
    daily_data (Daily r0) = Ok dd /\
    name = file_name (latitude v) (longitude v) (start_date_string v) (end_date_string v) /\
    bucket (snd (store_weather_data env req w)) =
      <[name := json_dumps (file_data r0 v dd)]> (bucket w).
Proof.
  intros H.
  assert (Hst : status (fst (store_weather_data env req w)) = 200) by now rewrite H.
  destruct (store_weather_data_outcome env req w)
    as [(r & Hv & Hr & Heq)|[(e & Hv & Heq)|(v & Hv & Ho)]].
  - rewrite Heq in Hst. cbn in Hst. congruence.
  - rewrite Heq in Hst. cbn [fst] in Hst.
    destruct (store_except_status e); congruence.
  - inversion Ho as [e Hapi Heq|Hapi Heq|r0 rest e Hapi Hdd Heq
                     |r0 rest dd e Hapi Hdd key content Hf Heq
                     |r0 rest dd Hapi Hdd key content Hf Heq];
      rewrite <- Heq in Hst, H; cbn [fst snd status] in *;
      try (destruct (store_except_status e); congruence); try discriminate.
    injection H as _ Hname. exists v, r0, rest, dd. subst key content.
    rewrite <- Hname. auto.
Qed.

(** X17. After a 200 of [store_weather_data] that names [name], and with the
    four requests of the reading handler going through,
    [get_weather_file_content] on [name] does not answer 404, and whenever
    the text dumped from the record decodes, it answers 200 with the decoded
    value. *)
Theorem stored_object_reads_back env req w message name :
  fst (store_weather_data env req w) =
    mkResp (PDict (("message", PStr message) :: ("file_name", PStr name) :: nil)) 200 ->
  gcs_fault env NewClient = None ->
  gcs_fault env GetBucket = None ->
  gcs_fault env (BlobExists name) = None ->
  gcs_fault env (DownloadAsText name) = None ->
  exists v r0 rest dd,
    validate req = Ok (inr v) /\
    weather_api env url (params v) = Ok (r0 :: rest) /\
    daily_data (Daily r0) = Ok dd /\
    status (fst (get_weather_file_content env name (snd (store_weather_data env req w))))
      <> 404 /\
    forall decoded,
      json_loads env (json_dumps (file_data r0 v dd)) = Some decoded ->
      fst (get_weather_file_content env name (snd (store_weather_data env req w))) =
        mkResp decoded 200.
Proof.
  intros H F1 F2 F3 F4.
  destruct (store_200_inv _ _ _ _ _ H) as (v & r0 & rest & dd & Hv & Hapi & Hdd & Hname & Hb).
  exists v, r0, rest, dd. repeat (split; [assumption|]).
  rewrite get_weather_file_content_cases, F1, F2, F3, F4, Hb. cbv zeta.
  rewrite lookup_insert_eq.
  destruct (json_loads env (json_dumps (file_data r0 v dd))) as [decoded|];
    cbn [fst status]; split; try discriminate.
  intros ? [= <-]. reflexivity.
Qed.

(** X18. After a 200 of [store_weather_data] that names [name], and with the
    three requests of the listing handler going through,
    [list_weather_files] answers 200 with exactly [name] and the names the
    bucket held before, each once. *)
Theorem stored_object_is_listed env req w message name :
  fst (store_weather_data env req w) =
    mkResp (PDict (("message", PStr message) :: ("file_name", PStr name) :: nil)) 200 ->
  gcs_fault env NewClient = None ->
  gcs_fault env GetBucket = None ->
  gcs_fault env ListBlobs = None ->
  exists names,
    fst (list_weather_files env (snd (store_weather_data env req w))) =
      mkResp (PList (map PStr names)) 200 /\
    NoDup names /\
    (forall n, n ∈ names <-> n = name \/ is_Some (bucket w !! n)).
Proof.
  intros H F1 F2 F3.
  destruct (store_200_inv _ _ _ _ _ H) as (v & r0 & rest & dd & _ & _ & _ & _ & Hb).
  rewrite list_weather_files_cases, F1, F2, F3, Hb. cbn [fst].
  eexists. split; [reflexivity|]. split; [apply NoDup_elements|].
  intros n. rewrite elem_of_elements, elem_of_dom, lookup_insert_is_Some.
  split; [intros [->|[_ ?]]; auto|].
  intros [->|Hn]; [auto|].
  destruct (decide (name = n)); auto.
Qed.

Lemma stored_object_reads_back_witness :
  exists v r0 rest dd,
    validate (mkRequest (Ok (body_berlin "2023-01-01" "2023-01-03"))) = Ok (inr v) /\
    weather_api env_archive url (params v) = Ok (r0 :: rest) /\
    daily_data (Daily r0) = Ok dd /\
    status (fst (get_weather_file_content env_archive
                   "weather_data_52.52_13.405_2023-01-01_to_2023-01-03.json"
                   (snd (store_weather_data env_archive
                           (mkRequest (Ok (body_berlin "2023-01-01" "2023-01-03"))) world1))))
      <> 404 /\
    forall decoded,
      json_loads env_archive (json_dumps (file_data r0 v dd)) = Some decoded ->
      fst (get_weather_file_content env_archive
             "weather_data_52.52_13.405_2023-01-01_to_2023-01-03.json"
             (snd (store_weather_data env_archive
                     (mkRequest (Ok (body_berlin "2023-01-01" "2023-01-03"))) world1))) =
        mkResp decoded 200.
Proof.
  apply (stored_object_reads_back env_archive
           (mkRequest (Ok (body_berlin "2023-01-01" "2023-01-03"))) world1
           "Data stored successfully in GCS"); reflexivity.
Defined.

Lemma stored_object_is_listed_witness :
  exists names,
    fst (list_weather_files env_ok
           (snd (store_weather_data env_ok
                   (mkRequest (Ok (body_berlin "2023-01-01" "2023-01-03"))) world1))) =
      mkResp (PList (map PStr names)) 200 /\
    NoDup names /\
    (forall n, n ∈ names <->
       n = "weather_data_52.52_13.405_2023-01-01_to_2023-01-03.json"%string \/
       is_Some (bucket world1 !! n)).
Proof.
  apply (stored_object_is_listed env_ok
           (mkRequest (Ok (body_berlin "2023-01-01" "2023-01-03"))) world1
           "Data stored successfully in GCS"); reflexivity.
Defined.

(** X19. [store_weather_data] reads its body through four lookups only: two
    non-empty objects whose [latitude] and [longitude] convert alike under
    [float] and whose [start_date] and [end_date] are equal get the same
    response and the same effects. Other keys, the order of the keys, and
    whether a coordinate came as a number or as a numeric string make no
    difference. *)
Theorem request_is_read_through_four_keys env d d' w :
  d <> nil -> d' <> nil ->
  builtin_float (dict_get d "latitude") = builtin_float (dict_get d' "latitude") ->
  builtin_float (dict_get d "longitude") = builtin_float (dict_get d' "longitude") ->
  dict_get d "start_date" = dict_get d' "start_date" ->
  dict_get d "end_date" = dict_get d' "end_date" ->
  store_weather_data env (mkRequest (Ok (PDict d))) w =
    store_weather_data env (mkRequest (Ok (PDict d'))) w.
Proof.
  intros Hd Hd' Hlat Hlon Hs He.
  assert (Hv : validate (mkRequest (Ok (PDict d))) = validate (mkRequest (Ok (PDict d')))).
  { unfold validate. cbn [get_json rbind get].
    destruct d as [|kv d]; [congruence|]. destruct d' as [|kv' d']; [congruence|].
    cbn [truthy negb]. rewrite Hlat, Hlon, Hs, He. reflexivity. }
  unfold store_weather_data. now rewrite Hv.
Qed.

Lemma request_is_read_through_four_keys_witness :
  store_weather_data env_ok (mkRequest (Ok (body_berlin "2023-01-01" "2023-01-03"))) world0 =
  store_weather_data env_ok
    (mkRequest (Ok (PDict (("end_date", PStr "2023-01-03") :: ("units", PStr "metric") ::
                           ("latitude", PStr " 52.52") :: ("longitude", PStr "+1.3405e1") ::
                           ("start_date", PStr "2023-01-01") :: nil)))) world0.
Proof.
  apply (request_is_read_through_four_keys env_ok
           (("latitude", PFloat 52.52) :: ("longitude", PFloat 13.405) ::
            ("start_date", PStr "2023-01-01") :: ("end_date", PStr "2023-01-03") :: nil)
           (("end_date", PStr "2023-01-03") :: ("units", PStr "metric") ::
            ("latitude", PStr " 52.52") :: ("longitude", PStr "+1.3405e1") ::
            ("start_date", PStr "2023-01-01") :: nil) world0);
    try discriminate; vm_compute; reflexivity.
Defined.



(** ** Dates *)

Lemma is_digit_val c : is_digit c = true -> 0 <= digit_val c <= 9.
Proof. unfold is_digit, digit_val. intros [?%Z.leb_le ?%Z.leb_le]%andb_prop. lia. Qed.

Lemma in_range_val lo hi c :
  in_range lo hi c = true -> lo - 48 <= digit_val c <= hi - 48.
Proof. unfold in_range, digit_val. intros [?%Z.leb_le ?%Z.leb_le]%andb_prop. lia. Qed.

Lemma match_Y_value l y r : match_Y l = Some (y, r) -> 0 <= y <= 9999.
Proof.
  destruct l as [|a [|b [|c [|d l]]]]; try discriminate. cbn [match_Y].
  destruct (is_digit a) eqn:Ha; [|discriminate].
  destruct (is_digit b) eqn:Hb; [|discriminate].
  destruct (is_digit c) eqn:Hc; [|discriminate].
  destruct (is_digit d) eqn:Hd; [|discriminate].
  cbn [andb]. intros [= <- _]. unfold digits_value. cbn [fold_left].
  apply is_digit_val in Ha, Hb, Hc, Hd. lia.
Qed.

Lemma match_m_value l m r : match_m l = Some (m, r) -> 1 <= m <= 12.
Proof.
  destruct l as [|a [|b l]]; try discriminate; cbn [match_m].
  - destruct (in_range 49 57 a) eqn:Ha; [|discriminate].
    intros [= <- _]. apply in_range_val in Ha. lia.
  - destruct ((code a =? 49) && in_range 48 50 b) eqn:E1.
    { apply andb_prop in E1 as [_ Hb%in_range_val]. intros [= <- _]. lia. }
    destruct ((code a =? 48) && in_range 49 57 b) eqn:E2.
    { apply andb_prop in E2 as [_ Hb%in_range_val]. intros [= <- _]. lia. }
    destruct (in_range 49 57 a) eqn:Ha; [|discriminate].
    intros [= <- _]. apply in_range_val in Ha. lia.
Qed.

Lemma match_d_value l d r : match_d l = Some (d, r) -> 1 <= d <= 31.
Proof.
  destruct l as [|a [|b l]]; try discriminate; cbn [match_d].
  - destruct (in_range 49 57 a) eqn:Ha; [|discriminate].
    intros [= <- _]. apply in_range_val in Ha. lia.
  - destruct ((code a =? 51) && in_range 48 49 b) eqn:E1.
    { apply andb_prop in E1 as [_ Hb%in_range_val]. intros [= <- _]. lia. }
    destruct (in_range 49 50 a && is_digit b) eqn:E2.
    { apply andb_prop in E2 as [Ha%in_range_val Hb%is_digit_val]. intros [= <- _]. lia. }
    destruct ((code a =? 48) && in_range 49 57 b) eqn:E3.
    { apply andb_prop in E3 as [_ Hb%in_range_val]. intros [= <- _]. lia. }
    destruct (in_range 49 57 a) eqn:Ha.
    { intros [= <- _]. apply in_range_val in Ha. lia. }
    destruct ((code a =? 32) && in_range 49 57 b) eqn:E5; [|discriminate].
    apply andb_prop in E5 as [_ Hb%in_range_val]. intros [= <- _]. lia.
Qed.

(** X21. A date that [strptime] accepts is a calendar date: year 1 to 9999,
    month 1 to 12, day 1 to the length of that month in that year. *)
Theorem strptime_gives_calendar_date s d :
  strptime s = inr d ->
  1 <= year d <= 9999 /\ 1 <= month d <= 12 /\
  1 <= day d <= days_in_month (year d) (month d).
Proof.
  unfold strptime.
  destruct (match_Y (list_of_string s)) as [[y r0]|] eqn:HY; [|discriminate].
  destruct (match_hyphen r0) as [r1|]; [|discriminate].
  destruct (match_m r1) as [[m r2]|] eqn:Hm; [|discriminate].
  destruct (match_hyphen r2) as [r3|]; [|discriminate].
  destruct (match_d r3) as [[dd [|c r4]]|] eqn:Hd; try discriminate.
  destruct (Z.ltb_spec y 1); [discriminate|].
  destruct (Z.ltb_spec (days_in_month y m) dd); [discriminate|].
  intros [= <-]. cbn [year month day].
  apply match_Y_value in HY. apply match_m_value in Hm. apply match_d_value in Hd. lia.
Qed.

Lemma strptime_gives_calendar_date_witness :
  1 <= year (mkdate 2024 2 29) <= 9999 /\ 1 <= month (mkdate 2024 2 29) <= 12 /\
  1 <= day (mkdate 2024 2 29) <= days_in_month (year (mkdate 2024 2 29)) (month (mkdate 2024 2 29)).
Proof. apply (strptime_gives_calendar_date "2024-2-29"). reflexivity. Defined.

Lemma match_Y_zero_pad y r :
  1000 <= y <= 9999 -> match_Y (list_of_string (zero_pad 4 y) ++ r) = Some (y, r).
Proof.
  intros Hy.
  assert (H : year_field_ok y = true).
  { apply (all_from_spec year_field_ok (Z.to_nat 9000) 1000); [vm_compute; reflexivity|lia]. }
  unfold year_field_ok in H.
  destruct (list_of_string (zero_pad 4 y)) as [|a [|b [|c [|d [|]]]]]; try discriminate.
  apply andb_prop in H as [H ?%Z.eqb_eq]. cbn [app match_Y]. rewrite H. congruence.
Qed.

Lemma match_m_zero_pad m r :
  1 <= m <= 12 -> match_m (list_of_string (zero_pad 2 m) ++ r) = Some (m, r).
Proof.
  intros Hm.
  assert (H : m = 1 \/ m = 2 \/ m = 3 \/ m = 4 \/ m = 5 \/ m = 6 \/ m = 7 \/ m = 8 \/
              m = 9 \/ m = 10 \/ m = 11 \/ m = 12) by lia.
  repeat destruct H as [H|H]; subst m; reflexivity.
Qed.

Lemma match_d_zero_pad d :
  1 <= d <= 31 -> match_d (list_of_string (zero_pad 2 d)) = Some (d, nil).
Proof.
  intros Hd.
  assert (H : day_field_ok d = true).
  { apply (all_from_spec day_field_ok 31 1); [vm_compute; reflexivity|lia]. }
  unfold day_field_ok in H.
  destruct (match_d (list_of_string (zero_pad 2 d))) as [[d' [|]]|]; try discriminate.
  apply Z.eqb_eq in H. congruence.
Qed.

(** X22. For every calendar date from year 1000 on, parsing what [strftime]
    prints gives the date back: the two date strings of the upstream query
    denote the validated dates. *)
Theorem strptime_strftime d :
  1000 <= year d <= 9999 -> 1 <= month d <= 12 ->
  1 <= day d <= days_in_month (year d) (month d) ->
  strptime (strftime d) = inr d.
Proof.
  destruct d as [y m dd]. cbn [year month day]. intros Hy Hm Hd.
  assert (Hdim : days_in_month y m <= 31).
  { unfold days_in_month. repeat destruct (_ =? _); cbn; try destruct (is_leap y); lia. }
  unfold strptime, strftime. cbn [year month day].
  rewrite !list_of_string_app.
  rewrite (match_Y_zero_pad y _ Hy).
  change (list_of_string "-") with ("-"%char :: nil). cbn [app match_hyphen].
  change (code "-" =? 45) with true. cbv iota.
  rewrite (match_m_zero_pad m _ Hm). cbn [match_hyphen].
  change (code "-" =? 45) with true. cbv iota.
  rewrite (match_d_zero_pad dd) by lia.
  destruct (Z.ltb_spec y 1); [lia|].
  destruct (Z.ltb_spec (days_in_month y m) dd); [lia|]. reflexivity.
Qed.

Lemma strptime_strftime_witness : strptime (strftime (mkdate 2023 1 3)) = inr (mkdate 2023 1 3).
Proof. apply (strptime_strftime (mkdate 2023 1 3)); cbn; lia. Defined.

(** X23. The comparison of line 54 is a strict total order on dates:
    irreflexive, asymmetric, transitive, and two dates of which neither is
    after the other are equal. *)
Theorem date_gt_strict_total_order :
  (forall a, date_gt a a = false) /\
  (forall a b, date_gt a b = true -> date_gt b a = false) /\
  (forall a b c, date_gt a b = true -> date_gt b c = true -> date_gt a c = true) /\
  (forall a b, date_gt a b = false -> date_gt b a = false -> a = b).
Proof.
  assert (Hspec : forall a b, date_gt a b = true <->
            year b < year a \/
            year b = year a /\ (month b < month a \/ month b = month a /\ day b < day a)).
  { intros a b. unfold date_gt.
    rewrite !orb_true_iff, !andb_true_iff, !orb_true_iff, !andb_true_iff,
      !Z.ltb_lt, !Z.eqb_eq. reflexivity. }
  assert (Hneg : forall a b, date_gt a b = false <-> ~ date_gt a b = true).
  { intros a b. destruct (date_gt a b); split; congruence. }
  split; [apply date_gt_irrefl|]. split; [|split].
  - intros a b H. apply Hneg. rewrite Hspec in *. lia.
  - intros a b c H1 H2. rewrite Hspec in *. lia.
  - intros [y1 m1 d1] [y2 m2 d2] H1 H2. rewrite Hneg, Hspec in H1, H2.
    cbn [year month day] in *. f_equal; lia.
Qed.

(** X24. The generated instants are none exactly when the end instant is not
    after the start instant, and every generated instant lies from the
    start instant on and before the end instant. *)
Theorem date_range_empty_iff start stop freq :
  (date_range start stop freq = nil <-> stop <= start) /\
  (forall i t, nth_error (date_range start stop freq) i = Some t -> start <= t < stop).
Proof.
  split.
  - rewrite <- length_zero_iff_nil, date_range_length. split.
    + intros H. 
      destruct (Z.le_gt_cases stop start) as [|Hgt]; [assumption|exfalso].
      assert (1 <= (stop - start + Z.pos freq - 1) / Z.pos freq); [|lia].
      apply Z.div_le_lower_bound; lia.
    + intros H. 
      assert ((stop - start + Z.pos freq - 1) / Z.pos freq <= 0); [|lia].
      assert ((stop - start + Z.pos freq - 1) / Z.pos freq < 1); [|lia].
      apply Z.div_lt_upper_bound; lia.
  - intros i t Hi.
    assert (Hlt : (i < length (date_range start stop freq))%nat).
    { apply nth_error_Some. congruence. }
    rewrite (date_range_nth _ _ _ _ Hlt) in Hi. injection Hi as <-.
    pose proof (date_range_before _ _ _ _ Hlt). split; [nia|assumption].
Qed.

(** ** Floats *)

Lemma lstrip_blank ws l : forallb is_space ws = true -> lstrip (ws ++ l) = lstrip l.
Proof.
  induction ws as [|c ws IH]; [reflexivity|]. cbn [forallb app lstrip].
  intros [-> H]%andb_prop. auto.
Qed.

Lemma forallb_rev {A} (f : A -> bool) l : forallb f (rev l) = forallb f l.
Proof.
  induction l as [|a l IH]; [reflexivity|]. cbn [rev forallb].
  rewrite forallb_app, IH. cbn. rewrite andb_true_r. apply andb_comm.
Qed.

Lemma rstrip_blank l ws : forallb is_space ws = true -> rstrip (l ++ ws) = rstrip l.
Proof.
  intros H. unfold rstrip. rewrite rev_app_distr, lstrip_blank; [reflexivity|].
  now rewrite forallb_rev.
Qed.

Lemma strip_blank_right l ws :
  forallb is_space ws = true -> rstrip (lstrip (l ++ ws)) = rstrip (lstrip l).
Proof.
  intros H. induction l as [|c l IH].
  - cbn [app]. rewrite <- (app_nil_r ws), lstrip_blank by assumption. reflexivity.
  - cbn [app lstrip]. destruct (is_space c); [exact IH|].
    now apply (rstrip_blank (c :: l)).
Qed.

(** X25. [float] on a string ignores white space before and after it: tab,
    line feed, vertical tab, form feed, carriage return, space, next line
    and no-break space. *)
Theorem float_of_str_ignores_outer_space pre s post :
  is_blank pre = true -> is_blank post = true ->
  float_of_str (pre +:+ s +:+ post) = float_of_str s.
Proof.
  unfold is_blank, float_of_str. intros Hpre Hpost.
  rewrite !list_of_string_app, lstrip_blank, strip_blank_right by assumption.
  reflexivity.
Qed.

Lemma float_of_str_ignores_outer_space_witness :
  float_of_str (" " +:+ "52.52" +:+ String (chr 10) "") = float_of_str "52.52".
Proof.
  apply (float_of_str_ignores_outer_space " " "52.52" (String (chr 10) "")); reflexivity.
Defined.

Lemma repr_finite_head sign m e :
  exists c r, repr_SF (S754_finite sign m e) = String c r /\
              (is_digit c = true \/
               code c = 45 /\ exists c' r', r = String c' r' /\ is_digit c' = true).
Proof.
  destruct (repr_SF_finite sign m e) as (body & c & r & Hrepr & -> & Hc & _).
  rewrite Hrepr. destruct sign.
  - exists "-"%char, (String c r). split; [reflexivity|]. right. split; [reflexivity|]. eauto.
  - exists c, r. split; [reflexivity|]. auto.
Qed.

(** A printed finite float is none of the three words [json.dumps] writes
    for the other floats. *)
Lemma repr_finite_not_word sign m e w :
  w = "NaN"%string \/ w = "Infinity"%string \/ w = "-Infinity"%string ->
  repr_SF (S754_finite sign m e) <> w.
Proof.
  intros Hw Heq.
  destruct (repr_finite_head sign m e) as (c & r & Hrepr & Hhead).
  rewrite Heq in Hrepr.
  destruct Hw as [-> | [-> | ->]]; injection Hrepr as <- <-;
    destruct Hhead as [Hc|(Hc & c' & r' & [= <- _] & Hc')]; vm_compute in *; congruence.
Qed.

(** X26. [json.dumps] writes different floats differently: the number written
    in the stored document determines the float, the three non-finite words
    included. *)
Theorem json_float_inj x y : json_float x = json_float y -> x = y.
Proof.
  unfold json_float. intros H.
  destruct (Prim2SF x) as [sx|sx| |sx mx ex] eqn:Hx;
    destruct (Prim2SF y) as [sy|sy| |sy my ey] eqn:Hy;
    try (apply float_repr_inj; exact H);
    try (unfold float_repr in H; rewrite ?Hx, ?Hy in H).
  all: try (apply Prim2SF_inj; rewrite Hx, Hy;
            repeat match goal with s : bool |- _ => destruct s end;
            solve [reflexivity | discriminate H]).
  all: try (repeat match goal with s : bool |- _ => destruct s end; discriminate H).
  all: try (exfalso; revert H; apply repr_finite_not_word;
            repeat match goal with s : bool |- _ => destruct s end; auto).
  all: try (exfalso; symmetry in H; revert H; apply repr_finite_not_word;
            repeat match goal with s : bool |- _ => destruct s end; auto).
Qed.

(** X27. The numeral that [repr] prints for a finite non-zero float
    [(-1)^sign * m * 2^e] denotes, read as a decimal, a real number of the
    rounding interval of [m * 2^e]: a reader that rounds to nearest, ties to
    even, gets the float back. *)
Theorem float_repr_rounds_back x sign m e :
  Prim2SF x = S754_finite sign m e ->
  exists numeral,
    float_repr x = (if sign then "-" else "") +:+ numeral /\
    rounds_to m e (numeral_value numeral).
Proof.
  intros Hx. unfold float_repr. rewrite Hx.
  destruct (repr_SF_finite sign m e) as (body & c & r & Hrepr & _ & _ & _ & Hround).
  exists body. auto.
Qed.

Lemma float_repr_rounds_back_witness :
  exists numeral,
    float_repr 52.52 = "" +:+ numeral /\
    rounds_to 7391532888421827 (-47) (numeral_value numeral).
Proof.
  apply (float_repr_rounds_back 52.52%float false 7391532888421827 (-47)). reflexivity.
Defined.

Lemma json_float_inj_witness : 13.405%float = 13.405%float.
Proof. apply (json_float_inj 13.405 13.405). reflexivity. Defined.

(** X28. A float is false in Python exactly when it is one of the two zeros:
    the presence test of line 47 lets every other coordinate through, the
    infinities and NaN included. *)
Theorem float_bool_false_iff_zero x :
  float_bool x = false <-> exists sign, Prim2SF x = S754_zero sign.
Proof.
  unfold float_bool. rewrite negb_false_iff, FloatAxioms.eqb_spec.
  change (Prim2SF 0) with (S754_zero false).
  destruct (Prim2SF x) as [s|s| |s m e]; unfold SFeqb, SFcompare; cbn.
  - split; eauto.
  - destruct s; split; try discriminate; intros [? ?]; discriminate.
  - split; try discriminate; intros [? ?]; discriminate.
  - destruct s; split; try discriminate; intros [? ?]; discriminate.
Qed.

(** X29. Of a non-empty list of upstream responses the handler uses the
    first one only (line 80): two environments whose upstream answers raise
    alike, are both empty, or start with the same response, and whose bucket
    fails alike, give the same response and the same effects. *)
Theorem only_first_response_is_used env env' req w :
  (forall p, same_head (weather_api env url p) (weather_api env' url p)) ->
  (forall c, gcs_fault env c = gcs_fault env' c) ->
  store_weather_data env req w = store_weather_data env' req w.
Proof.
  intros Hapi Hgcs. unfold store_weather_data, handle, bind, lift.
  destruct (validate req) as [[r|v]|e]; try reflexivity.
  unfold fetch_and_store, call_weather_api, upload_from_string, gcs, bind, lift, log, ret. cbn.
  specialize (Hapi (params v)). unfold same_head in Hapi.
  destruct (weather_api env url (params v)) as [[|r0 rest]|e];
    destruct (weather_api env' url (params v)) as [[|r0' rest']|e'];
    try contradiction; subst; try reflexivity.
  destruct (daily_data (Daily r0')) as [dd|e]; cbn; [|reflexivity].
  rewrite Hgcs. reflexivity.
Qed.

Lemma only_first_response_is_used_witness :
  store_weather_data env_ok (mkRequest (Ok (body_berlin "2023-01-01" "2023-01-03"))) world1 =
  store_weather_data env_two_responses
    (mkRequest (Ok (body_berlin "2023-01-01" "2023-01-03"))) world1.
Proof.
  apply (only_first_response_is_used env_ok env_two_responses).
  - intros p. reflexivity.
  - intros c. reflexivity.
Defined.
